(** * Verification of the OAuth token-exchange proxy

    A shallow embedding of [lib/validation.ts], [lib/oauth-common.ts],
    [lib/oauth-google.ts], [lib/oauth-microsoft.ts], [lib/user-info.ts] and
    [src/index.ts], followed by the properties of the specification.

    Conventions of the embedding.
    - A JavaScript string is a [string]; every [ascii] stands for one UTF-16
      code unit below 256.
    - The interfaces of [lib/types.ts] are records.  A field the code tests
      with [!x] is an [option string]: [None] is [undefined], and the test
      succeeds on [None] and on the empty string.
    - [JSON.parse] checks no interface.  Where the program would behave
      otherwise on a value outside the interface, the embedding keeps that
      value: the body of a request may be [null], and its [provider], on
      which a string method is called, may be something else than a string.
      The other fields are only tested with [!x] and converted to a string,
      and are held at their declared type; a value that passes the test and
      converts to the empty string, an empty array for one, has no image
      there.
    - Platform services (the URL parser, [JSON.parse], [fetch]) are not code
      of this repository.  The program is parameterised by them; a model of
      the URL parser for http-like URLs is given where a concrete run needs
      one.  Every platform call may fail: [JSON.parse], [request.json()],
      [new URL] and [new RegExp] by throwing, an outbound [fetch] by
      rejecting.
    - An [async] function that may end in an exception nobody catches returns
      a [Result]; [Throw] at the top is a request left without a response.
    - The module-level [regexCache], the outbound calls and the console are
      threaded explicitly. *)

From Stdlib Require Import String Ascii List Bool ZArith Lia.
From stdpp Require Import base option gmap strings pretty.
Import ListNotations.

Local Open Scope string_scope.
Local Open Scope bool_scope.

(** ** JavaScript string primitives *)

Module Js.

Definition code (c : ascii) : N := N_of_ascii c.

(** LineTerminator of ECMA-262 among the code units below 256: LF and CR.
    The other two, U+2028 and U+2029, lie beyond the strings of the
    embedding. *)
Definition isLineTerminator (c : ascii) : bool :=
  N.eqb (code c) 10 || N.eqb (code c) 13.

(** WhiteSpace and LineTerminator among the code units below 256, the
    characters [String.prototype.trim] removes: TAB, LF, VT, FF, CR, SP and
    NBSP. *)
Definition isTrimmed (c : ascii) : bool :=
  (N.leb 9 (code c) && N.leb (code c) 13)
  || N.eqb (code c) 32 || N.eqb (code c) 160.

Definition isEmpty (s : string) : bool :=
  match s with EmptyString => true | String _ _ => false end.

(** Truthiness of a possibly undefined string: [!x] is [negb (truthy x)]. *)
Definition truthy (x : option string) : bool :=
  match x with Some s => negb (isEmpty s) | None => false end.

Fixpoint trimStart (s : string) : string :=
  match s with
  | EmptyString => EmptyString
  | String c s' => if isTrimmed c then trimStart s' else s
  end.

Fixpoint trimEnd (s : string) : string :=
  match s with
  | EmptyString => EmptyString
  | String c s' =>
      let t := trimEnd s' in
      if isTrimmed c && isEmpty t then EmptyString else String c t
  end.

Definition trim (s : string) : string := trimEnd (trimStart s).

(** [s.split(sep)] for a one-character separator; never the empty list. *)
Fixpoint split (sep : ascii) (s : string) : list string :=
  match s with
  | EmptyString => [EmptyString]
  | String c s' =>
      if Ascii.eqb c sep then EmptyString :: split sep s'
      else match split sep s' with
           | x :: xs => String c x :: xs
           | [] => [String c EmptyString]
           end
  end.

Fixpoint isPrefix (p s : string) : bool :=
  match p, s with
  | EmptyString, _ => true
  | String a p', String b s' => Ascii.eqb a b && isPrefix p' s'
  | String _ _, EmptyString => false
  end.

(** [s.replace(/needle/g, repl)] for a literal, non-empty [needle]: the
    leftmost occurrence is replaced, the scan resumes after it.  [skip]
    counts the characters of the current occurrence still to be dropped. *)
Fixpoint replaceAllFrom (needle repl : string) (skip : nat) (s : string) : string :=
  match s with
  | EmptyString => EmptyString
  | String c s' =>
      match skip with
      | S k => replaceAllFrom needle repl k s'
      | O =>
          if isPrefix needle s
          then repl ++ replaceAllFrom needle repl (String.length needle - 1) s'
          else String c (replaceAllFrom needle repl 0 s')
      end
  end.

Definition replaceAll (needle repl s : string) : string :=
  replaceAllFrom needle repl 0 s.

(** [s.replace(/[class]/g, f)] where the replacement is computed from the
    matched character. *)
Fixpoint replaceClass (cls : ascii -> bool) (f : ascii -> string) (s : string) : string :=
  match s with
  | EmptyString => EmptyString
  | String c s' =>
      (if cls c then f c else String c EmptyString) ++ replaceClass cls f s'
  end.

Definition isUpperAscii (c : ascii) : bool :=
  N.leb 65 (code c) && N.leb (code c) 90.

(** Upper-case code units below 256: A-Z, and U+00C0..U+00DE but U+00D7. *)
Definition isUpper (c : ascii) : bool :=
  isUpperAscii c
  || (N.leb 192 (code c) && N.leb (code c) 222 && negb (N.eqb (code c) 215)).

Definition lowerChar (c : ascii) : ascii :=
  if isUpper c then ascii_of_N (code c + 32) else c.

Fixpoint toLowerCase (s : string) : string :=
  match s with
  | EmptyString => EmptyString
  | String c s' => String (lowerChar c) (toLowerCase s')
  end.

(** [s.slice(n) || "/"]: the suffix from index [n]. *)
Fixpoint slice (n : nat) (s : string) : string :=
  match n, s with
  | O, _ => s
  | S k, String _ s' => slice k s'
  | S _, EmptyString => EmptyString
  end.

Definition startsWith (s p : string) : bool := isPrefix p s.

End Js.

(** ** Regular expressions: the fragment [matchesPattern] generates *)

Module RegExp.

(** SyntaxCharacter of ECMA-262. *)
Definition isSyntaxCharacter (c : ascii) : bool :=
  existsb (Ascii.eqb c) (list_ascii_of_string "^$\.*+?()[]{}|").

Inductive Atom : Type :=
| AChar (c : ascii)      (* a pattern character, or an identity escape *)
| ADot.                  (* [.], without the [s] flag *)

Inductive Term : Type :=
| TStart                 (* [^], without the [m] flag *)
| TEnd                   (* [$], without the [m] flag *)
| TAtom (a : Atom)
| TStar (a : Atom).      (* greedy [*] *)

Definition t : Type := list Term.

(** [new RegExp(source)] with no flags.  The model covers assertions,
    [.], identity escapes of syntax characters, pattern characters and the
    [*] quantifier; [None] stands for the SyntaxError the constructor
    throws (a lone quantifier, a trailing backslash) and for every source
    outside this fragment. *)
Fixpoint parse (s : string) : option t :=
  match s with
  | EmptyString => Some []
  | String c s1 =>
      if Ascii.eqb c "^" then cons TStart <$> parse s1
      else if Ascii.eqb c "$" then cons TEnd <$> parse s1
      else if Ascii.eqb c "." then
        match s1 with
        | String q s2 =>
            if Ascii.eqb q "*" then cons (TStar ADot) <$> parse s2
            else cons (TAtom ADot) <$> parse s1
        | EmptyString => Some [TAtom ADot]
        end
      else if Ascii.eqb c "\" then
        match s1 with
        | String d s2 =>
            if isSyntaxCharacter d then
              match s2 with
              | String q s3 =>
                  if Ascii.eqb q "*" then cons (TStar (AChar d)) <$> parse s3
                  else cons (TAtom (AChar d)) <$> parse s2
              | EmptyString => Some [TAtom (AChar d)]
              end
            else None
        | EmptyString => None
        end
      else if isSyntaxCharacter c then None
      else
        match s1 with
        | String q s2 =>
            if Ascii.eqb q "*" then cons (TStar (AChar c)) <$> parse s2
            else cons (TAtom (AChar c)) <$> parse s1
        | EmptyString => Some [TAtom (AChar c)]
        end
  end.

Definition atomMatches (a : Atom) (c : ascii) : bool :=
  match a with
  | AChar d => Ascii.eqb c d
  | ADot => negb (Js.isLineTerminator c)
  end.

(** Zero or more characters accepted by [a], then the continuation [k].
    [atStart] tells whether the current position is index 0. *)
Fixpoint star (k : bool -> string -> bool) (a : Atom) (atStart : bool) (s : string) : bool :=
  k atStart s
  || match s with
     | String c s' => atomMatches a c && star k a false s'
     | EmptyString => false
     end.

(** The backtracking matcher at one position: does some prefix of [s]
    match [r]? *)
Fixpoint matchHere (r : t) (atStart : bool) (s : string) : bool :=
  match r with
  | [] => true
  | TStart :: r' => atStart && matchHere r' atStart s
  | TEnd :: r' => Js.isEmpty s && matchHere r' atStart s
  | TAtom a :: r' =>
      match s with
      | String c s' => atomMatches a c && matchHere r' false s'
      | EmptyString => false
      end
  | TStar a :: r' => star (matchHere r') a atStart s
  end.

Fixpoint search (r : t) (atStart : bool) (s : string) : bool :=
  matchHere r atStart s
  || match s with
     | String _ s' => search r false s'
     | EmptyString => false
     end.

(** [regex.test(s)] for a regex without the [g] and [y] flags: a match is
    looked for at every start index, and the regex keeps no state. *)
Definition test (r : t) (s : string) : bool := search r true s.

End RegExp.

(** ** The platform URL parser *)

Module Url.

(** The fields of a parsed URL that the program reads. *)
Record t : Type := mk { protocol : string; hostname : string; port : option N }.

(** [url.host]: the host name, followed by the port when it is not the
    default one of the scheme. *)
Definition host (u : t) : string :=
  match port u with
  | Some p => hostname u ++ ":" ++ pretty p
  | None => hostname u
  end.

Definition isAlpha (c : ascii) : bool :=
  let n := Js.code c in
  (N.leb 65 n && N.leb n 90) || (N.leb 97 n && N.leb n 122).

Definition isDigit (c : ascii) : bool :=
  N.leb 48 (Js.code c) && N.leb (Js.code c) 57.

Definition isSchemeChar (c : ascii) : bool :=
  isAlpha c || isDigit c
  || Ascii.eqb c "+" || Ascii.eqb c "-" || Ascii.eqb c ".".

Definition lowerAscii (c : ascii) : ascii :=
  if Js.isUpperAscii c then ascii_of_N (Js.code c + 32) else c.

Definition all (p : ascii -> bool) (s : string) : bool :=
  forallb p (list_ascii_of_string s).

Definition mapChars (f : ascii -> ascii) (s : string) : string :=
  string_of_list_ascii (map f (list_ascii_of_string s)).

(** The text before and after the first character satisfying [p]. *)
Fixpoint break (p : ascii -> bool) (s : string) : string * option string :=
  match s with
  | EmptyString => (EmptyString, None)
  | String c s' =>
      if p c then (EmptyString, Some s')
      else let '(a, b) := break p s' in (String c a, b)
  end.

Fixpoint dropWhile (p : ascii -> bool) (s : string) : string :=
  match s with
  | EmptyString => EmptyString
  | String c s' => if p c then dropWhile p s' else s
  end.

Fixpoint takeWhile (p : ascii -> bool) (s : string) : string :=
  match s with
  | EmptyString => EmptyString
  | String c s' => if p c then String c (takeWhile p s') else EmptyString
  end.

(** The text after the last [@], or the whole text when there is none. *)
Fixpoint afterCredentials (s : string) : string :=
  match s with
  | EmptyString => EmptyString
  | String c s' =>
      if existsb (Ascii.eqb "@") (list_ascii_of_string s')
      then afterCredentials s'
      else if Ascii.eqb c "@" then s' else s
  end.

Definition defaultPort (scheme : string) : option N :=
  if String.eqb scheme "http" then Some 80%N
  else if String.eqb scheme "https" then Some 443%N
  else if String.eqb scheme "ws" then Some 80%N
  else if String.eqb scheme "wss" then Some 443%N
  else if String.eqb scheme "ftp" then Some 21%N
  else None.

Definition isSlash (c : ascii) : bool := Ascii.eqb c "/" || Ascii.eqb c "\".

Definition endsAuthority (c : ascii) : bool :=
  isSlash c || Ascii.eqb c "?" || Ascii.eqb c "#".

(** Forbidden domain code points of the URL Standard. *)
Definition isForbiddenDomain (c : ascii) : bool :=
  N.leb (Js.code c) 32 || N.leb 127 (Js.code c)
  || existsb (Ascii.eqb c) (list_ascii_of_string "#%/:<>?@[\]^|").

Definition decimal (s : string) : N :=
  fold_left (fun n c => (10 * n + (Js.code c - 48))%N) (list_ascii_of_string s) 0%N.

(** Leading and trailing C0 controls and spaces are stripped, tabs and
    newlines are removed, before the state machine runs. *)
Definition isC0OrSpace (c : ascii) : bool := N.leb (Js.code c) 32.

Fixpoint stripEnd (s : string) : string :=
  match s with
  | EmptyString => EmptyString
  | String c s' =>
      let t := stripEnd s' in
      if isC0OrSpace c && Js.isEmpty t then EmptyString else String c t
  end.

Definition isTabOrNewline (c : ascii) : bool :=
  N.eqb (Js.code c) 9 || N.eqb (Js.code c) 10 || N.eqb (Js.code c) 13.

Fixpoint removeTabNewline (s : string) : string :=
  match s with
  | EmptyString => EmptyString
  | String c s' =>
      if isTabOrNewline c then removeTabNewline s' else String c (removeTabNewline s')
  end.

(** The port state: digits only, at most 65535, the default port of the
    scheme is dropped. *)
Definition parsePort (dflt : N) (s : string) : option (option N) :=
  if Js.isEmpty s then Some None
  else if all isDigit s && N.leb (decimal s) 65535
  then Some (if N.eqb (decimal s) dflt then None else Some (decimal s))
  else None.

(** [new URL(input)] without a base, after the URL Standard, for the
    special schemes http, https, ws, wss and ftp with a host that is an
    ASCII domain name: the scheme and the host are lower-cased, the default
    port is dropped, and a missing scheme, an empty host, a forbidden host
    character or a bad port is a failure ([None], the TypeError the
    constructor throws).  Other schemes, bracketed IPv6 hosts,
    percent-escapes and non-ASCII hosts are outside the model, which also
    answers [None] for them; numeric hosts are kept as written. *)
Definition parse (input : string) : option t :=
  let input := removeTabNewline (stripEnd (dropWhile isC0OrSpace input)) in
  match break (Ascii.eqb ":") input with
  | (String c0 _ as scheme, Some rest) =>
      if negb (isAlpha c0 && all isSchemeChar scheme) then None else
      let scheme := mapChars lowerAscii scheme in
      match defaultPort scheme with
      | None => None
      | Some dflt =>
          let authority :=
            takeWhile (fun c => negb (endsAuthority c)) (dropWhile isSlash rest) in
          let '(h, p) := break (Ascii.eqb ":") (afterCredentials authority) in
          let h := mapChars lowerAscii h in
          if Js.isEmpty h || negb (all (fun c => negb (isForbiddenDomain c)) h)
          then None
          else
            match parsePort dflt (default EmptyString p) with
            | Some port => Some (mk (scheme ++ ":") h port)
            | None => None
            end
      end
  | _ => None
  end.

End Url.

(** ** lib/validation.ts *)

Abbreviation Cache := (gmap string RegExp.t).

(** A [for (const pattern of patterns)] loop that returns [true] at the
    first pattern passing [test], and [false] after the last one. *)
Fixpoint firstMatch (test : string -> Cache -> bool * Cache)
    (patterns : list string) (regexCache : Cache) : bool * Cache :=
  match patterns with
  | [] => (false, regexCache)
  | pattern :: rest =>
      let '(ok, regexCache) := test pattern regexCache in
      if ok then (true, regexCache) else firstMatch test rest regexCache
  end.

(** The character class [[.*+?^${}()|[\]\\]] of the escaping step. *)
Definition isEscaped (c : ascii) : bool :=
  existsb (Ascii.eqb c) (list_ascii_of_string ".*+?^${}()|[]\").

(** The source of the regex built for [pattern]: every character of the
    class is prefixed with a backslash, then every [\*] becomes [.*]. *)
Definition regexPattern (pattern : string) : string :=
  let escaped :=
    Js.replaceClass isEscaped (fun c => String "\" (String c EmptyString)) pattern in
  "^" ++ Js.replaceAll "\*" ".*" escaped ++ "$".

Definition matchesPattern (uri pattern : string) (regexCache : Cache) : bool * Cache :=
  match regexCache !! pattern with
  | Some regex => (RegExp.test regex uri, regexCache)
  | None =>
      match RegExp.parse (regexPattern pattern) with
      | Some regex => (RegExp.test regex uri, <[pattern := regex]> regexCache)
      | None => (false, regexCache)
      end
  end.

Definition validateRedirectUri (redirectUri allowedUris : string) (regexCache : Cache)
  : bool * Cache :=
  if Js.isEmpty redirectUri then (false, regexCache)
  else
    let patterns := map Js.trim (Js.split "," allowedUris) in
    firstMatch (fun pattern => matchesPattern redirectUri pattern) patterns regexCache.

Section Origin.

(** [new URL(s)]: [None] when the constructor throws. *)
Variable URL : string -> option Url.t.

Definition extractOrigin (urlOrPattern : string) : option string :=
  let testUrl := Js.replaceAll "*" "WILDCARD" urlOrPattern in
  match URL testUrl with
  | Some url =>
      Some (Js.replaceAll "WILDCARD" "*" (Url.protocol url ++ "//" ++ Url.host url))
  | None => None
  end.

Definition isAllowedOrigin (origin allowedUris : string) (regexCache : Cache)
  : bool * Cache :=
  if Js.isEmpty origin then (false, regexCache)
  else
    let patterns := map Js.trim (Js.split "," allowedUris) in
    firstMatch
      (fun pattern regexCache =>
         let patternOrigin := extractOrigin pattern in
         if Js.truthy patternOrigin
         then matchesPattern origin (default EmptyString patternOrigin) regexCache
         else (false, regexCache))
      patterns regexCache.

End Origin.

(** ** lib/types.ts *)

(** A value of type [unknown] obtained from [JSON.parse]; the program
    forwards it without looking inside.  A number is kept as its literal. *)
#[local] Unset Elimination Schemes.
Inductive Json : Type :=
| JNull
| JBool (b : bool)
| JNumber (literal : string)
| JString (s : string)
| JArray (items : list Json)
| JObject (members : list (string * Json)).
#[local] Set Elimination Schemes.

(** The bindings of the worker.  A secret that was never set is [None]. *)
Record Env : Type := {
  ENVIRONMENT : string;
  USER_INFO_SERVICE_URL : string;
  ALLOWED_REDIRECT_URIS : string;
  GOOGLE_OAUTH_CLIENT_ID : option string;
  GOOGLE_OAUTH_CLIENT_SECRET : option string;
  MICROSOFT_OAUTH_CLIENT_ID : option string;
  MICROSOFT_OAUTH_CLIENT_SECRET : option string
}.

(** [env[key]] for a key of [Env]. *)
Definition envGet (env : Env) (key : string) : option string :=
  if String.eqb key "ENVIRONMENT" then Some (ENVIRONMENT env)
  else if String.eqb key "USER_INFO_SERVICE_URL" then Some (USER_INFO_SERVICE_URL env)
  else if String.eqb key "ALLOWED_REDIRECT_URIS" then Some (ALLOWED_REDIRECT_URIS env)
  else if String.eqb key "GOOGLE_OAUTH_CLIENT_ID" then GOOGLE_OAUTH_CLIENT_ID env
  else if String.eqb key "GOOGLE_OAUTH_CLIENT_SECRET" then GOOGLE_OAUTH_CLIENT_SECRET env
  else if String.eqb key "MICROSOFT_OAUTH_CLIENT_ID" then MICROSOFT_OAUTH_CLIENT_ID env
  else if String.eqb key "MICROSOFT_OAUTH_CLIENT_SECRET" then MICROSOFT_OAUTH_CLIENT_SECRET env
  else None.

(** What [JSON.parse] may leave in a property the interface announces as a
    string: a string, or another value, of which the program sees the
    truthiness only. *)
Inductive Untyped : Type :=
| IsString (s : string)
| NotString (truthy : bool).

(** [!!x] *)
Definition isTruthy (x : option Untyped) : bool :=
  match x with
  | Some (IsString s) => negb (Js.isEmpty s)
  | Some (NotString truthy) => truthy
  | None => false
  end.

(** The properties of a parsed request body.  [provider_json] is the
    property [provider] as [JSON.parse] left it. *)
Record TokenExchangeRequest : Type := {
  code : option string;
  redirect_uri : option string;
  code_verifier : option string;
  provider_json : option Untyped
}.

(** The provider of a request, when it is a string. *)
Definition provider (req : TokenExchangeRequest) : option string :=
  match provider_json req with
  | Some (IsString name) => Some name
  | _ => None
  end.

(** What [request.json()] resolves to: [null], or a value seen through its
    properties (a number, a string or an array has none of the four). *)
Inductive Body : Type :=
| JsonNull
| JsonValue (req : TokenExchangeRequest).

Record TokenExchangeResponse : Type := {
  access_token : option string;
  token_type : option string;
  expires_in : option Z;
  scope : option string;
  refresh_token : option string;
  id_token : option string;
  user_info : option Json
}.

(** [tokenResp.user_info = userInfo] *)
Definition set_user_info (tokenResp : TokenExchangeResponse) (userInfo : Json)
  : TokenExchangeResponse :=
  {| access_token := access_token tokenResp;
     token_type := token_type tokenResp;
     expires_in := expires_in tokenResp;
     scope := scope tokenResp;
     refresh_token := refresh_token tokenResp;
     id_token := id_token tokenResp;
     user_info := Some userInfo |}.

(** ** The platform: HTTP, JSON and the outside world *)

Record FetchRequest : Type := {
  fetch_url : string;
  fetch_method : string;
  fetch_headers : list (string * string);
  (** the [URLSearchParams] whose form encoding is the body, if any *)
  fetch_body : option (list (string * string))
}.

Record FetchResponse : Type := { resp_status : N; resp_text : string }.

(** [response.ok] *)
Definition resp_ok (response : FetchResponse) : bool :=
  N.leb 200 (resp_status response) && N.leb (resp_status response) 299.

(** Error response structure from OAuth providers. *)
Record OAuthErrorResponse : Type := {
  error : option string;
  error_description : option string
}.

(** The outcome of a call that may throw; the payload of [Throw] is the
    message of the error. *)
Inductive Result (A : Type) : Type :=
| Ok (a : A)
| Throw (message : string).
Arguments Ok {A} a.
Arguments Throw {A} message.

(** What the program is run against.  [body_json] is [request.json()];
    [None] is the SyntaxError it rejects with.  [JSON.parse] appears at each
    type the source annotates its result with.  At the two record types
    [None] is the error that follows: the SyntaxError of [JSON.parse], or the
    TypeError of the first property read when the text parses to [null].
    [remote] is the outcome of an outbound call, [fetch] and the reading of
    the body together: the answer of the remote end, or the error the call
    rejects with. *)
Record Platform : Type := {
  URL : string -> option Url.t;
  body_json : string -> option Body;
  JSON_parse_token : string -> option TokenExchangeResponse;
  JSON_parse_error : string -> option OAuthErrorResponse;
  JSON_parse : string -> option Json;
  remote : FetchRequest -> Result FetchResponse
}.

(** The request a body parses to, when it parses to a value other than
    [null]. *)
Definition request_json (P : Platform) (text : string) : option TokenExchangeRequest :=
  match body_json P text with
  | Some (JsonValue req) => Some req
  | _ => None
  end.

(** The mutable state around one request: the module-level regex cache,
    the outbound calls made so far (oldest first) and the console. *)
Record World : Type := {
  regexCache : Cache;
  outbound : list FetchRequest;
  console : list string
}.

Definition St (A : Type) : Type := World -> A * World.

Definition ret {A} (a : A) : St A := fun w => (a, w).

Definition bind {A B} (m : St A) (k : A -> St B) : St B :=
  fun w => let '(a, w') := m w in k a w'.

Notation "x <- m ;; k" := (bind m (fun x => k))
  (at level 100, m at next level, right associativity).
Notation "m ;;; k" := (bind m (fun _ => k))
  (at level 100, right associativity).

(** An [async] function whose body is [m] and throws nothing. *)
Definition returned {A} (m : St A) : St (Result A) :=
  a <- m ;; ret (Ok a).

Definition withCache {A} (f : Cache -> A * Cache) : St A :=
  fun w =>
    let '(a, c) := f (regexCache w) in
    (a, {| regexCache := c; outbound := outbound w; console := console w |}).

Definition console_error (line : string) : St unit :=
  fun w =>
    (tt, {| regexCache := regexCache w; outbound := outbound w;
            console := console w ++ [line] |}).

(** [await fetch(url, init)] followed by [await response.text()]: the call
    is recorded, and comes back with a status and a body or rejects. *)
Definition fetch (P : Platform) (request : FetchRequest) : St (Result FetchResponse) :=
  fun w =>
    (remote P request,
     {| regexCache := regexCache w; outbound := outbound w ++ [request];
        console := console w |}).

(** [String(x)] inside a template literal. *)
Definition showString (x : option string) : string := default "undefined" x.

(** [params.set(name, value)] on a [URLSearchParams]. *)
Fixpoint paramsSet (name value : string) (params : list (string * string))
  : list (string * string) :=
  match params with
  | [] => [(name, value)]
  | (k, v) :: rest =>
      if String.eqb k name
      then (name, value) :: filter (fun kv => negb (String.eqb (fst kv) name)) rest
      else (k, v) :: paramsSet name value rest
  end.

(** ** lib/oauth-common.ts, lib/oauth-google.ts, lib/oauth-microsoft.ts *)

Record OAuthProviderConfig : Type := {
  tokenEndpoint : string;
  clientIdKey : string;
  clientSecretKey : string;
  providerName : string
}.

Definition googleConfig : OAuthProviderConfig := {|
  tokenEndpoint := "https://oauth2.googleapis.com/token";
  clientIdKey := "GOOGLE_OAUTH_CLIENT_ID";
  clientSecretKey := "GOOGLE_OAUTH_CLIENT_SECRET";
  providerName := "Google"
|}.

Definition microsoftConfig : OAuthProviderConfig := {|
  tokenEndpoint := "https://login.microsoftonline.com/common/oauth2/v2.0/token";
  clientIdKey := "MICROSOFT_OAUTH_CLIENT_ID";
  clientSecretKey := "MICROSOFT_OAUTH_CLIENT_SECRET";
  providerName := "Microsoft"
|}.

(** The outbound call of [exchangeCode]. *)
Definition tokenRequest (req : TokenExchangeRequest) (config : OAuthProviderConfig)
    (clientId clientSecret : string) : FetchRequest :=
  let params :=
    [("client_id", clientId); ("client_secret", clientSecret);
     ("code", showString (code req));
     ("redirect_uri", showString (redirect_uri req));
     ("grant_type", "authorization_code")] in
  let params :=
    if Js.truthy (code_verifier req)
    then paramsSet "code_verifier" (default EmptyString (code_verifier req)) params
    else params in
  {| fetch_url := tokenEndpoint config;
     fetch_method := "POST";
     fetch_headers := [("Content-Type", "application/x-www-form-urlencoded")];
     fetch_body := Some params |}.

(** The message thrown for a response that is not ok. *)
Definition exchangeErrorMessage (P : Platform) (response : FetchResponse) : string :=
  match JSON_parse_error P (resp_text response) with
  | Some errResp =>
      "Token exchange failed: " ++ showString (error errResp) ++ " - "
        ++ showString (error_description errResp)
  | None =>
      "Token exchange failed with status " ++ pretty (resp_status response)
        ++ ": " ++ resp_text response
  end.

Definition exchangeCode (P : Platform) (req : TokenExchangeRequest) (env : Env)
    (config : OAuthProviderConfig) : St (Result TokenExchangeResponse) :=
  let clientId := envGet env (clientIdKey config) in
  let clientSecret := envGet env (clientSecretKey config) in
  if negb (Js.truthy clientId) then
    ret (Throw (clientIdKey config ++ " is not configured"))
  else if negb (Js.truthy clientSecret) then
    ret (Throw (clientSecretKey config ++ " is not configured"))
  else
    called <- fetch P (tokenRequest req config (default EmptyString clientId)
                         (default EmptyString clientSecret)) ;;
    match called with
    | Throw err => ret (Throw err)
    | Ok response =>
        if negb (resp_ok response) then
          ret (Throw (exchangeErrorMessage P response))
        else
          match JSON_parse_token P (resp_text response) with
          | None => ret (Throw "SyntaxError")
          | Some tokenResp =>
              if negb (Js.truthy (access_token tokenResp)) then
                ret (Throw "access_token missing in token response")
              else if negb (Js.truthy (id_token tokenResp)) then
                ret (Throw "id_token missing in token response")
              else ret (Ok tokenResp)
          end
    end.

Definition exchangeCodeGoogle (P : Platform) (req : TokenExchangeRequest) (env : Env)
  : St (Result TokenExchangeResponse) :=
  exchangeCode P req env googleConfig.

Definition exchangeCodeMicrosoft (P : Platform) (req : TokenExchangeRequest) (env : Env)
  : St (Result TokenExchangeResponse) :=
  exchangeCode P req env microsoftConfig.

(** ** lib/user-info.ts *)

(** The outbound call of [fetchUserInfo]. *)
Definition userInfoRequest (idToken : string) (env : Env) (referralCode : option string)
  : FetchRequest :=
  {| fetch_url := USER_INFO_SERVICE_URL env ++ "/user/info";
     fetch_method := "GET";
     fetch_headers :=
       ("x-auth-token", idToken)
       :: (if Js.truthy referralCode
           then [("x-referral-code", default EmptyString referralCode)] else []);
     fetch_body := None |}.

Definition fetchUserInfo (P : Platform) (idToken : string) (env : Env)
    (referralCode : option string) : St (Result Json) :=
  called <- fetch P (userInfoRequest idToken env referralCode) ;;
  match called with
  | Throw err => ret (Throw err)
  | Ok response =>
      if negb (resp_ok response) then
        ret (Throw ("User info request failed with status "
                      ++ pretty (resp_status response) ++ ": " ++ resp_text response))
      else
        match JSON_parse P (resp_text response) with
        | Some userInfo => ret (Ok userInfo)
        | None => ret (Throw ("Failed to parse user info response: " ++ resp_text response))
        end
  end.

(** ** src/index.ts *)

(** An incoming request: its method, the path of its URL, the [Origin] and
    [x-referral-code] headers, and its body. *)
Record Request : Type := {
  method : string;
  url_pathname : string;
  header_origin : option string;
  header_referral_code : option string;
  body : string
}.

(** The value handed to [JSON.stringify] for the body of a response. *)
Inductive Data : Type :=
| DHealth (status environment : string)
| DError (error : string)
| DToken (tokenResp : TokenExchangeResponse).

Record Response : Type := {
  status : N;
  headers : list (string * string);
  payload : option Data
}.

Definition stripRoutePrefix (pathname : string) : string :=
  if Js.startsWith pathname "/api-staging" then
    let rest := Js.slice (String.length "/api-staging") pathname in
    if Js.isEmpty rest then "/" else rest
  else if Js.startsWith pathname "/api" then
    let rest := Js.slice (String.length "/api") pathname in
    if Js.isEmpty rest then "/" else rest
  else pathname.

Section Worker.

Variable P : Platform.

(** [origin && allowedUris && isAllowedOrigin(origin, allowedUris)] *)
Definition originAllowed (origin : option string) (allowedUris : string) : St bool :=
  if Js.truthy origin && negb (Js.isEmpty allowedUris)
  then withCache (isAllowedOrigin (URL P) (default EmptyString origin) allowedUris)
  else ret false.

Definition jsonResponse (data : Data) (status : N) (origin : option string)
    (allowedUris : string) : St Response :=
  allowed <- originAllowed origin allowedUris ;;
  let cors :=
    if allowed
    then [("Access-Control-Allow-Origin", default EmptyString origin);
          ("Access-Control-Allow-Methods", "GET, POST, OPTIONS");
          ("Access-Control-Allow-Headers", "Content-Type, X-Referral-Code")]
    else [] in
  ret {| status := status;
         headers := ("Content-Type", "application/json") :: cors;
         payload := Some data |}.

Definition errorResponse (message : string) (status : N) (origin : option string)
    (allowedUris : string) : St Response :=
  jsonResponse (DError message) status origin allowedUris.

Definition handleCors (origin : option string) (allowedUris : string) : St Response :=
  allowed <-
    (if Js.truthy origin
     then withCache (isAllowedOrigin (URL P) (default EmptyString origin) allowedUris)
     else ret false) ;;
  let cors :=
    if allowed
    then [("Access-Control-Allow-Origin", default EmptyString origin);
          ("Access-Control-Allow-Methods", "GET, POST, OPTIONS");
          ("Access-Control-Allow-Headers", "Content-Type, X-Referral-Code");
          ("Access-Control-Max-Age", "86400")]
    else [] in
  ret {| status := 204; headers := cors; payload := None |}.

(** [request.headers.get('x-referral-code') || undefined] *)
Definition referralCodeOf (request : Request) : option string :=
  if Js.truthy (header_referral_code request)
  then header_referral_code request else None.

(** Lines 113-130 of [handleTokenExchange]: what follows a provider
    exchange that returned [tokenResp]. *)
Definition enrich (request : Request) (env : Env) (origin : option string)
    (tokenResp : TokenExchangeResponse) : St Response :=
  let allowedUris := ALLOWED_REDIRECT_URIS env in
  if negb (Js.truthy (id_token tokenResp)) then
    console_error ("[" ++ ENVIRONMENT env ++ "] id_token missing from provider response") ;;;
    errorResponse "Token exchange failed" 400 origin allowedUris
  else
    let referralCode := referralCodeOf request in
    r <- fetchUserInfo P (default EmptyString (id_token tokenResp)) env referralCode ;;
    match r with
    | Ok userInfo =>
        jsonResponse (DToken (set_user_info tokenResp userInfo)) 200 origin allowedUris
    | Throw err =>
        console_error ("[" ++ ENVIRONMENT env ++ "] Failed to fetch user info: " ++ err) ;;;
        errorResponse "Failed to retrieve user information" 500 origin allowedUris
    end.

(** The outer [try]/[catch] of [handleTokenExchange] around what may throw
    inside it, and what follows when nothing does. *)
Definition exchanged (request : Request) (env : Env) (origin : option string)
    (exchange : St (Result TokenExchangeResponse)) : St Response :=
  r <- exchange ;;
  match r with
  | Ok tokenResp => enrich request env origin tokenResp
  | Throw err =>
      console_error ("[" ++ ENVIRONMENT env ++ "] OAuth token exchange error: " ++ err) ;;;
      errorResponse "Token exchange failed" 400 origin (ALLOWED_REDIRECT_URIS env)
  end.

(** [req.provider.toLowerCase()], which exists on a string only. *)
Definition toLowerCaseOf (x : option Untyped) : Result string :=
  match x with
  | Some (IsString name) => Ok (Js.toLowerCase name)
  | _ => Throw "TypeError: req.provider.toLowerCase is not a function"
  end.

(** The body is parsed inside a [try] of its own, the field checks and the
    validation of the redirect URI stand outside any, and the outer [try]
    starts at the provider switch: what [req.code] throws on a body that is
    [null] leaves the function. *)
Definition handleTokenExchange (request : Request) (env : Env) (origin : option string)
  : St (Result Response) :=
  let allowedUris := ALLOWED_REDIRECT_URIS env in
  match body_json P (body request) with
  | None => returned (errorResponse "Invalid request body" 400 origin allowedUris)
  | Some JsonNull => ret (Throw "TypeError: Cannot read properties of null (reading 'code')")
  | Some (JsonValue req) =>
      returned
        (if negb (Js.truthy (code req)) then
           errorResponse "code is required" 400 origin allowedUris
         else if negb (Js.truthy (redirect_uri req)) then
           errorResponse "redirect_uri is required" 400 origin allowedUris
         else if negb (isTruthy (provider_json req)) then
           errorResponse "provider is required" 400 origin allowedUris
         else
           valid <- withCache (validateRedirectUri
                                 (default EmptyString (redirect_uri req)) allowedUris) ;;
           if negb valid then
             console_error ("[" ++ ENVIRONMENT env ++ "] Invalid redirect_uri attempted: "
                              ++ default EmptyString (redirect_uri req)) ;;;
             errorResponse "invalid redirect_uri" 400 origin allowedUris
           else
             match toLowerCaseOf (provider_json req) with
             | Throw err => exchanged request env origin (ret (Throw err))
             | Ok provider =>
                 if String.eqb provider "google" then
                   exchanged request env origin (exchangeCodeGoogle P req env)
                 else if String.eqb provider "outlook" || String.eqb provider "microsoft" then
                   exchanged request env origin (exchangeCodeMicrosoft P req env)
                 else
                   errorResponse ("Unsupported OAuth provider: " ++ provider) 400
                     origin allowedUris
             end)
  end.

(** The [fetch] handler of the worker. *)
Definition worker_fetch (request : Request) (env : Env) : St (Result Response) :=
  let origin := header_origin request in
  let pathname := stripRoutePrefix (url_pathname request) in
  if String.eqb (method request) "OPTIONS" then
    returned (handleCors origin (ALLOWED_REDIRECT_URIS env))
  else if String.eqb pathname "/health" then
    returned (jsonResponse (DHealth "ok" (ENVIRONMENT env)) 200 origin
                (ALLOWED_REDIRECT_URIS env))
  else if String.eqb pathname "/oauth/token" && String.eqb (method request) "POST" then
    handleTokenExchange request env origin
  else
    returned (jsonResponse (DError "Not found") 404 origin (ALLOWED_REDIRECT_URIS env)).

End Worker.

(** ** Wildcard matching, as the specification words it *)

(** [*] matches zero or more characters accepted by [any], every other
    character of the pattern stands for itself, and the whole of [uri] has to
    be consumed. *)
Fixpoint wildcard (any : ascii -> bool) (pattern uri : string) : bool :=
  match pattern with
  | EmptyString => Js.isEmpty uri
  | String p pattern' =>
      if Ascii.eqb p "*" then
        (fix skip (uri : string) : bool :=
           wildcard any pattern' uri
           || match uri with
              | String c uri' => any c && skip uri'
              | EmptyString => false
              end) uri
      else
        match uri with
        | String c uri' => Ascii.eqb c p && wildcard any pattern' uri'
        | EmptyString => false
        end
  end.

Definition lineFeed : ascii := ascii_of_N 10.

(** The reading of the specification: [*] stands for any characters. *)
Definition wildcardSpec : string -> string -> bool := wildcard (fun _ => true).

(** What [.] accepts in a regex without the [s] flag, among the code units
    below 256. *)
Definition dotChar (c : ascii) : bool := negb (Js.isLineTerminator c).

(** The regex a pattern is expected to compile to. *)
Definition termOf (c : ascii) : RegExp.Term :=
  if Ascii.eqb c "*" then RegExp.TStar RegExp.ADot else RegExp.TAtom (RegExp.AChar c).

Definition compiled (pattern : string) : RegExp.t :=
  RegExp.TStart :: map termOf (list_ascii_of_string pattern) ++ [RegExp.TEnd].

(** What one character of the pattern becomes in the source of the regex. *)
Definition token (c : ascii) : string :=
  if Ascii.eqb c "*" then ".*"
  else if isEscaped c then String "\" (String c EmptyString)
  else String c EmptyString.

Fixpoint tokens (pattern : string) : string :=
  match pattern with
  | EmptyString => EmptyString
  | String c p => token c ++ tokens p
  end.

Definition escapeAll (pattern : string) : string :=
  Js.replaceClass isEscaped (fun c => String "\" (String c EmptyString)) pattern.

(** Every entry of the cache is the regex compiled from its key: the
    invariant of [regexCache], which starts empty and is written by
    [matchesPattern] only. *)
Definition cacheOk (regexCache : Cache) : Prop :=
  forall pattern regex,
    regexCache !! pattern = Some regex -> RegExp.parse (regexPattern pattern) = Some regex.

(** ** The outcomes the specification speaks of *)

(** The outcome of the call [exchangeCode] makes to the provider. *)
Definition providerResponse (P : Platform) (req : TokenExchangeRequest) (env : Env)
    (config : OAuthProviderConfig) : Result FetchResponse :=
  remote P (tokenRequest req config
              (default EmptyString (envGet env (clientIdKey config)))
              (default EmptyString (envGet env (clientSecretKey config)))).



(** The outcome of the call [fetchUserInfo] makes to the backend. *)
Definition backendResponse (P : Platform) (idToken : string) (env : Env)
    (referralCode : option string) : Result FetchResponse :=
  remote P (userInfoRequest idToken env referralCode).

(** The enrichment call succeeded with [userInfo]: the backend answered in
    2xx with a body that parses to it. *)
Definition enriched (P : Platform) (idToken : string) (env : Env)
    (referralCode : option string) (userInfo : Json) : Prop :=
  exists response,
    backendResponse P idToken env referralCode = Ok response
    /\ resp_ok response = true
    /\ JSON_parse P (resp_text response) = Some userInfo.

(** The enrichment call failed: the call was rejected, or the backend
    answered outside 2xx, or with a body that does not parse. *)
Definition enrichmentFailed (P : Platform) (idToken : string) (env : Env)
    (referralCode : option string) : Prop :=
  (exists err, backendResponse P idToken env referralCode = Throw err)
  \/ exists response,
       backendResponse P idToken env referralCode = Ok response
       /\ (resp_ok response = false \/ JSON_parse P (resp_text response) = None).

(** An error response: status 400 or 500 and the flat body [{error}]. *)
Definition isErrorResponse (resp : Response) : Prop :=
  (status resp = 400%N \/ status resp = 500%N)
  /\ exists message, payload resp = Some (DError message).

(** A token response: status 200 and a body with a non-empty
    [access_token], a non-empty [id_token], and the [user_info] a successful
    enrichment call for that [id_token] returned. *)
Definition isTokenResponse (P : Platform) (request : Request) (env : Env)
    (resp : Response) : Prop :=
  status resp = 200%N
  /\ exists tokenResp userInfo,
       payload resp = Some (DToken tokenResp)
       /\ Js.truthy (access_token tokenResp) = true
       /\ Js.truthy (id_token tokenResp) = true
       /\ user_info tokenResp = Some userInfo
       /\ enriched P (default EmptyString (id_token tokenResp)) env
            (referralCodeOf request) userInfo.

(** A computation keeps the invariant of the regex cache. *)
Definition preserves {A} (m : St A) : Prop :=
  forall w, cacheOk (regexCache w) -> cacheOk (regexCache (snd (m w))).

(** ** A sample deployment, for concrete runs *)

Definition sampleEnv : Env := {|
  ENVIRONMENT := "staging";
  USER_INFO_SERVICE_URL := "https://backend.example.com/api";
  ALLOWED_REDIRECT_URIS := "https://app.example.com/*";
  GOOGLE_OAUTH_CLIENT_ID := Some "google-client";
  GOOGLE_OAUTH_CLIENT_SECRET := Some "google-secret";
  MICROSOFT_OAUTH_CLIENT_ID := Some "microsoft-client";
  MICROSOFT_OAUTH_CLIENT_SECRET := Some "microsoft-secret"
|}.

Definition sampleExchange (redirectUri provider : string) : TokenExchangeRequest := {|
  code := Some "4/0AfJohXkq";
  redirect_uri := Some redirectUri;
  code_verifier := Some "dBjftJeZ4CVP";
  provider_json := Some (IsString provider)
|}.

Definition sampleTokens : TokenExchangeResponse := {|
  access_token := Some "ya29.a0Af";
  token_type := Some "Bearer";
  expires_in := Some 3600%Z;
  scope := Some "openid email";
  refresh_token := None;
  id_token := Some "eyJhbGciOi.eyJlbWFpbCI6.c2ln";
  user_info := None
|}.

(** A world in which the request body decodes to [req], every provider
    answers 200 with [sampleTokens], and the backend answers with
    [backendStatus] and a one-member profile; no call is rejected. *)
Definition samplePlatform (req : TokenExchangeRequest) (backendStatus : N) : Platform := {|
  URL := Url.parse;
  body_json := fun _ => Some (JsonValue req);
  JSON_parse_token := fun _ => Some sampleTokens;
  JSON_parse_error := fun _ => None;
  JSON_parse := fun _ => Some (JObject [("email", JString "user@example.com")]);
  remote := fun call =>
    if String.eqb (fetch_method call) "POST"
    then Ok {| resp_status := 200; resp_text := "tokens" |}
    else Ok {| resp_status := backendStatus; resp_text := "profile" |}
|}.

Definition sampleRequest : Request := {|
  method := "POST";
  url_pathname := "/api/oauth/token";
  header_origin := Some "https://app.example.com";
  header_referral_code := None;
  body := "exchange"
|}.

Definition freshWorld : World := {| regexCache := ∅; outbound := []; console := [] |}.

(** ** lib/user-info.ts: the email claim of an ID token *)

(** JWT claims from an ID token (partial).  A claim may hold any JSON value:
    the code tests [typeof x === 'string'] before it uses one. *)
Record IDTokenClaims : Type := {
  email : option Json;
  preferred_username : option Json;
  upn : option Json
}.

(** [x && typeof x === 'string']: the claim as a string, when it is a
    non-empty one. *)
Definition stringClaim (x : option Json) : option string :=
  match x with
  | Some (JString s) => if Js.isEmpty s then None else Some s
  | _ => None
  end.

(** [s.includes(c)] for a one-character [c]. *)
Definition includes (s : string) (c : ascii) : bool :=
  existsb (Ascii.eqb c) (list_ascii_of_string s).

(** [c.repeat(n)] *)
Fixpoint repeatChar (c : ascii) (n : nat) : string :=
  match n with
  | O => EmptyString
  | S k => String c (repeatChar c k)
  end.

(** The middle segment of the token made ready for [atob]: base64url
    turned into base64, then padded to a multiple of four characters. *)
Definition base64Padded (segment : string) : string :=
  let base64 := Js.replaceAll "_" "/" (Js.replaceAll "-" "+" segment) in
  base64 ++ repeatChar "=" ((4 - String.length base64 mod 4) mod 4).

Section IdToken.

(** [atob] and [JSON.parse] at [IDTokenClaims]; [None] when they throw. *)
Variable atob : string -> option string.
Variable JSON_parse_claims : string -> option IDTokenClaims.

Definition extractEmailFromIdToken (idToken : string) : Result string :=
  let parts := Js.split "." idToken in
  if negb (Nat.eqb (List.length parts) 3) then Throw "Invalid JWT format"
  else
    match atob (base64Padded (nth 1 parts EmptyString)) with
    | None => Throw "InvalidCharacterError"
    | Some payload =>
        match JSON_parse_claims payload with
        | None => Throw "SyntaxError"
        | Some claims =>
            match stringClaim (email claims) with
            | Some address => Ok address
            | None =>
                match stringClaim (preferred_username claims) with
                | Some name =>
                    if includes name "@" then Ok name
                    else
                      match stringClaim (upn claims) with
                      | Some principal =>
                          if includes principal "@" then Ok principal
                          else Throw "Email claim not found in token"
                      | None => Throw "Email claim not found in token"
                      end
                | None =>
                    match stringClaim (upn claims) with
                    | Some principal =>
                        if includes principal "@" then Ok principal
                        else Throw "Email claim not found in token"
                    | None => Throw "Email claim not found in token"
                    end
                end
            end
        end
    end.

End IdToken.

(** ** Traces of one request *)

(** [w'] is [w] after the outbound [calls] and the console [lines], in
    order. *)
Definition extends (w w' : World) (calls : list FetchRequest) (lines : list string) : Prop :=
  outbound w' = (outbound w ++ calls)%list /\ console w' = (console w ++ lines)%list.

(** The lower-cased provider of a request whose provider is a string. *)
Definition providerOf (req : TokenExchangeRequest) : string :=
  Js.toLowerCase (default EmptyString (provider req)).

(** The configuration the provider switch of [handleTokenExchange] selects. *)
Definition dispatched (req : TokenExchangeRequest) (config : OAuthProviderConfig) : Prop :=
  (providerOf req = "google" /\ config = googleConfig)
  \/ ((providerOf req = "outlook" \/ providerOf req = "microsoft")
      /\ config = microsoftConfig).

(** The body parsed to [req], the three required fields are present, the
    provider being a string, and the redirect URI passes the allowlist on
    the cache of [w]. *)
Definition accepted (P : Platform) (request : Request) (env : Env) (w : World)
    (req : TokenExchangeRequest) : Prop :=
  request_json P (body request) = Some req
  /\ Js.truthy (code req) = true
  /\ Js.truthy (redirect_uri req) = true
  /\ Js.truthy (provider req) = true
  /\ fst (validateRedirectUri (default EmptyString (redirect_uri req))
            (ALLOWED_REDIRECT_URIS env) (regexCache w)) = true.

(** The outbound call of an exchange, when both credentials are set. *)
Definition exchangeCalls (req : TokenExchangeRequest) (env : Env)
    (config : OAuthProviderConfig) : list FetchRequest :=
  if Js.truthy (envGet env (clientIdKey config))
     && Js.truthy (envGet env (clientSecretKey config))
  then [tokenRequest req config
          (default EmptyString (envGet env (clientIdKey config)))
          (default EmptyString (envGet env (clientSecretKey config)))]
  else [].

(** The request is answered, with the given status and JSON body. *)
Definition answers (outcome : Result Response) (st : N) (data : Data) : Prop :=
  exists resp, outcome = Ok resp /\ status resp = st /\ payload resp = Some data.

(** The paths through [handleTokenExchange]: the outcome, the outbound
    calls and the console lines of each. *)
Inductive Handled (P : Platform) (request : Request) (env : Env) (w : World)
    (outcome : Result Response) : list FetchRequest -> list string -> Prop :=
| H_bad_body :
    body_json P (body request) = None ->
    answers outcome 400 (DError "Invalid request body") ->
    Handled P request env w outcome [] []
| H_null_body :
    body_json P (body request) = Some JsonNull ->
    outcome = Throw "TypeError: Cannot read properties of null (reading 'code')" ->
    Handled P request env w outcome [] []
| H_no_code req :
    request_json P (body request) = Some req ->
    Js.truthy (code req) = false ->
    answers outcome 400 (DError "code is required") ->
    Handled P request env w outcome [] []
| H_no_redirect_uri req :
    request_json P (body request) = Some req ->
    Js.truthy (code req) = true ->
    Js.truthy (redirect_uri req) = false ->
    answers outcome 400 (DError "redirect_uri is required") ->
    Handled P request env w outcome [] []
| H_no_provider req :
    request_json P (body request) = Some req ->
    Js.truthy (code req) = true ->
    Js.truthy (redirect_uri req) = true ->
    isTruthy (provider_json req) = false ->
    answers outcome 400 (DError "provider is required") ->
    Handled P request env w outcome [] []
| H_invalid_redirect req :
    request_json P (body request) = Some req ->
    Js.truthy (code req) = true ->
    Js.truthy (redirect_uri req) = true ->
    isTruthy (provider_json req) = true ->
    fst (validateRedirectUri (default EmptyString (redirect_uri req))
           (ALLOWED_REDIRECT_URIS env) (regexCache w)) = false ->
    answers outcome 400 (DError "invalid redirect_uri") ->
    Handled P request env w outcome []
      ["[" ++ ENVIRONMENT env ++ "] Invalid redirect_uri attempted: "
         ++ default EmptyString (redirect_uri req)]
| H_provider_not_string req :
    request_json P (body request) = Some req ->
    Js.truthy (code req) = true ->
    Js.truthy (redirect_uri req) = true ->
    provider_json req = Some (NotString true) ->
    fst (validateRedirectUri (default EmptyString (redirect_uri req))
           (ALLOWED_REDIRECT_URIS env) (regexCache w)) = true ->
    answers outcome 400 (DError "Token exchange failed") ->
    Handled P request env w outcome []
      ["[" ++ ENVIRONMENT env ++ "] OAuth token exchange error: "
         ++ "TypeError: req.provider.toLowerCase is not a function"]
| H_unsupported req :
    accepted P request env w req ->
    providerOf req <> "google" ->
    providerOf req <> "outlook" ->
    providerOf req <> "microsoft" ->
    answers outcome 400 (DError ("Unsupported OAuth provider: " ++ providerOf req)) ->
    Handled P request env w outcome [] []
| H_exchange_failed req config message :
    accepted P request env w req ->
    dispatched req config ->
    fst (exchangeCode P req env config w) = Throw message ->
    answers outcome 400 (DError "Token exchange failed") ->
    Handled P request env w outcome (exchangeCalls req env config)
      ["[" ++ ENVIRONMENT env ++ "] OAuth token exchange error: " ++ message]
| H_enrichment_failed req config tokenResp message :
    accepted P request env w req ->
    dispatched req config ->
    fst (exchangeCode P req env config w) = Ok tokenResp ->
    fst (fetchUserInfo P (default EmptyString (id_token tokenResp)) env
           (referralCodeOf request) w) = Throw message ->
    answers outcome 500 (DError "Failed to retrieve user information") ->
    Handled P request env w outcome
      (exchangeCalls req env config
         ++ [userInfoRequest (default EmptyString (id_token tokenResp)) env
               (referralCodeOf request)])
      ["[" ++ ENVIRONMENT env ++ "] Failed to fetch user info: " ++ message]
| H_success req config tokenResp userInfo :
    accepted P request env w req ->
    dispatched req config ->
    fst (exchangeCode P req env config w) = Ok tokenResp ->
    fst (fetchUserInfo P (default EmptyString (id_token tokenResp)) env
           (referralCodeOf request) w) = Ok userInfo ->
    answers outcome 200 (DToken (set_user_info tokenResp userInfo)) ->
    Handled P request env w outcome
      (exchangeCalls req env config
         ++ [userInfoRequest (default EmptyString (id_token tokenResp)) env
               (referralCodeOf request)])
      [].

(** The first complaint of [handleTokenExchange] before it looks at the
    redirect URI, if any: the body does not parse, or it parses to a value
    other than [null] in which a required field is missing or empty.  A body
    that is [null] gets no complaint: reading its [code] throws. *)
Definition firstProblem (P : Platform) (request : Request) : option string :=
  match body_json P (body request) with
  | None => Some "Invalid request body"
  | Some JsonNull => None
  | Some (JsonValue req) =>
      if negb (Js.truthy (code req)) then Some "code is required"
      else if negb (Js.truthy (redirect_uri req)) then Some "redirect_uri is required"
      else if negb (isTruthy (provider_json req)) then Some "provider is required"
      else None
  end.

(** The three places the worker ever calls. *)
Definition knownEndpoint (env : Env) (call : FetchRequest) : Prop :=
  (fetch_url call = tokenEndpoint googleConfig /\ fetch_method call = "POST")
  \/ (fetch_url call = tokenEndpoint microsoftConfig /\ fetch_method call = "POST")
  \/ (fetch_url call = USER_INFO_SERVICE_URL env ++ "/user/info"
      /\ fetch_method call = "GET").

(** A POST to one of the two token endpoints. *)
Definition exchangeCall (call : FetchRequest) : Prop :=
  (fetch_url call = tokenEndpoint googleConfig
   \/ fetch_url call = tokenEndpoint microsoftConfig)
  /\ fetch_method call = "POST".

(** A GET to the profile endpoint of the backend. *)
Definition profileCall (env : Env) (call : FetchRequest) : Prop :=
  fetch_url call = USER_INFO_SERVICE_URL env ++ "/user/info"
  /\ fetch_method call = "GET".

(** No call, one exchange, or one exchange followed by one profile lookup. *)
Definition onceEach (env : Env) (calls : list FetchRequest) : Prop :=
  calls = []
  \/ (exists exchange, calls = [exchange] /\ exchangeCall exchange)
  \/ (exists exchange lookup,
        calls = [exchange; lookup] /\ exchangeCall exchange /\ profileCall env lookup).



(** Every body is the JSON text [null]. *)
Definition nullPlatform : Platform := {|
  URL := Url.parse;
  body_json := fun _ => Some JsonNull;
  JSON_parse_token := fun _ => Some sampleTokens;
  JSON_parse_error := fun _ => None;
  JSON_parse := fun _ => None;
  remote := fun _ => Throw "Network connection lost"
|}.


(** The requests an isolate serves one after the other, each on the world
    the one before left behind. *)
Fixpoint serve (P : Platform) (env : Env) (requests : list Request) (w : World) : World :=
  match requests with
  | [] => w
  | request :: rest => serve P env rest (snd (worker_fetch P request env w))
  end.

(** The trimmed entries of an allowlist. *)
Definition allowlist (allowedUris : string) : list string :=
  map Js.trim (Js.split "," allowedUris).

(** [pattern] matches [uri], [*] standing for characters other than line
    terminators. *)
Definition matches (pattern uri : string) : bool := wildcard dotChar pattern uri.

(** Some entry of the allowlist matches the URI. *)
Definition redirectMatches (allowedUris redirectUri : string) : bool :=
  existsb (fun pattern => matches pattern redirectUri) (allowlist allowedUris).

(** Some entry of the allowlist reduces to an origin that matches. *)
Definition originMatches (URL : string -> option Url.t) (allowedUris origin : string) : bool :=
  existsb
    (fun pattern =>
       match extractOrigin URL pattern with
       | Some patternOrigin => negb (Js.isEmpty patternOrigin) && matches patternOrigin origin
       | None => false
       end)
    (allowlist allowedUris).

(** ** Response headers *)

Definition contentTypeJson : string * string := ("Content-Type", "application/json").

(** The CORS headers of a JSON response for the origin [o]. *)
Definition corsHeaders (o : string) : list (string * string) :=
  [("Access-Control-Allow-Origin", o);
   ("Access-Control-Allow-Methods", "GET, POST, OPTIONS");
   ("Access-Control-Allow-Headers", "Content-Type, X-Referral-Code")].

(** The request with another path. *)
Definition withPath (request : Request) (pathname : string) : Request :=
  {| method := method request;
     url_pathname := pathname;
     header_origin := header_origin request;
     header_referral_code := header_referral_code request;
     body := body request |}.

(** The strings the worker may use as cache keys: the entries of the
    allowlist and the origins they reduce to. *)
Definition allowlistKeys (URL : string -> option Url.t) (allowedUris : string) : list string :=
  flat_map
    (fun pattern =>
       pattern :: match extractOrigin URL pattern with
                  | Some patternOrigin => [patternOrigin]
                  | None => []
                  end)
    (allowlist allowedUris).

(** [c'] holds every entry of [c], and beyond them only keys of [keys]. *)
Definition grows (keys : list string) (c c' : Cache) : Prop :=
  (forall key regex, c !! key = Some regex -> c' !! key = Some regex)
  /\ (forall key, is_Some (c' !! key) -> is_Some (c !! key) \/ In key keys).

(** A computation that only grows the cache, by keys of [keys]. *)
Definition growing (keys : list string) {A} (m : St A) : Prop :=
  forall w, grows keys (regexCache w) (regexCache (snd (m w))).

(** The response was built by [jsonResponse], on a world whose cache
    satisfies the invariant if that of [w] does. *)
Definition produced (P : Platform) (env : Env) (origin : option string)
    (w : World) (resp : Response) : Prop :=
  exists data st w',
    resp = fst (jsonResponse P data st origin (ALLOWED_REDIRECT_URIS env) w')
    /\ (cacheOk (regexCache w) -> cacheOk (regexCache w')).

Definition producing (P : Platform) (env : Env) (origin : option string)
    (m : St Response) : Prop :=
  forall w, produced P env origin w (fst (m w)).

(** The same for a computation that may throw: what it answers, if it
    answers, was built by [jsonResponse]. *)
Definition answering (P : Platform) (env : Env) (origin : option string)
    (m : St (Result Response)) : Prop :=
  forall w resp, fst (m w) = Ok resp -> produced P env origin w resp.

(** The number of occurrences of a character. *)
Fixpoint countChar (c : ascii) (s : string) : nat :=
  match s with
  | EmptyString => 0
  | String d s' => (if Ascii.eqb d c then 1 else 0) + countChar c s'
  end.

(** The form fields of an exchange, in the order they are set. *)
Definition exchangeFields (req : TokenExchangeRequest) (clientId clientSecret : string)
  : list (string * string) :=
  [("client_id", clientId); ("client_secret", clientSecret);
   ("code", showString (code req));
   ("redirect_uri", showString (redirect_uri req));
   ("grant_type", "authorization_code")]
  ++ match code_verifier req with
     | Some verifier =>
         if Js.isEmpty verifier then [] else [("code_verifier", verifier)]
     | None => []
     end.

(** The call of an exchange, field by field. *)
Definition exchangePost (endpoint : string) (req : TokenExchangeRequest)
    (clientId clientSecret : string) : FetchRequest :=
  {| fetch_url := endpoint;
     fetch_method := "POST";
     fetch_headers := [("Content-Type", "application/x-www-form-urlencoded")];
     fetch_body := Some (exchangeFields req clientId clientSecret) |}.

(** The call of a profile lookup, field by field. *)
Definition profileGet (env : Env) (request : Request) (idToken : string) : FetchRequest :=
  {| fetch_url := USER_INFO_SERVICE_URL env ++ "/user/info";
     fetch_method := "GET";
     fetch_headers :=
       ("x-auth-token", idToken)
       :: match header_referral_code request with
          | Some referral =>
              if Js.isEmpty referral then [] else [("x-referral-code", referral)]
          | None => []
          end;
     fetch_body := None |}.


(** Sample decoders for an ID token: every payload decodes, to these claims. *)
Definition sampleClaims : IDTokenClaims := {|
  email := Some (JNumber "7");
  preferred_username := Some (JString "user@example.com");
  upn := Some (JString "user@corp.example")
|}.

(** * Properties *)

(** ** The escaping step *)

Lemma isEscaped_syntax c : isEscaped c = RegExp.isSyntaxCharacter c.
Proof. destruct c as [[] [] [] [] [] [] [] []]; reflexivity. Qed.

Lemma escapeAll_head pattern :
  match escapeAll pattern with
  | String c _ => c <> "*"%char
  | EmptyString => True
  end.
Proof.
  destruct pattern as [|c p]; [exact I|].
  unfold escapeAll; simpl.
  destruct (isEscaped c) eqn:E; simpl; [discriminate|].
  intros ->. discriminate E.
Qed.

Lemma replace_star_plain c s :
  c <> "\"%char ->
  Js.replaceAllFrom "\*" ".*" 0 (String c s) = String c (Js.replaceAllFrom "\*" ".*" 0 s).
Proof.
  intros Hc. cbn [Js.replaceAllFrom Js.isPrefix].
  destruct (Ascii.eqb_spec "\" c) as [E|_]; [congruence|reflexivity].
Qed.

Lemma replace_star_backslash s :
  match s with String c _ => c <> "*"%char | EmptyString => True end ->
  Js.replaceAllFrom "\*" ".*" 0 (String "\" s) = String "\" (Js.replaceAllFrom "\*" ".*" 0 s).
Proof.
  intros Hs. destruct s as [|c s]; [reflexivity|].
  cbn [Js.replaceAllFrom Js.isPrefix].
  change (Ascii.eqb "\" "\") with true. cbn [andb].
  destruct (Ascii.eqb_spec "*" c) as [E|_]; [congruence|reflexivity].
Qed.

Lemma replace_star_hit s :
  Js.replaceAllFrom "\*" ".*" 0 (String "\" (String "*" s))
  = ".*" ++ Js.replaceAllFrom "\*" ".*" 0 s.
Proof. reflexivity. Qed.

Lemma escaped_tokens pattern :
  Js.replaceAll "\*" ".*" (escapeAll pattern)
  = tokens pattern.
Proof.
  unfold Js.replaceAll.
  induction pattern as [|c p IH]; [reflexivity|].
  pose proof (escapeAll_head p) as Hhead.
  change (escapeAll (String c p))
    with ((if isEscaped c then String "\" (String c EmptyString) else String c EmptyString)
            ++ escapeAll p).
  cbn [tokens]. unfold token at 1.
  destruct (Ascii.eqb_spec c "*") as [->|Hstar].
  - cbn [isEscaped]. simpl String.append at 1.
    change (isEscaped "*") with true. cbv iota.
    change (String "\" (String "*" EmptyString) ++ escapeAll p)
      with (String "\" (String "*" (escapeAll p))).
    rewrite replace_star_hit, IH. reflexivity.
  - destruct (isEscaped c) eqn:E.
    + change (String "\" (String c EmptyString) ++ escapeAll p)
        with (String "\" (String c (escapeAll p))).
      rewrite replace_star_backslash by exact Hstar.
      destruct (Ascii.eqb_spec c "\") as [->|Hb].
      * rewrite replace_star_backslash by exact Hhead. rewrite IH. reflexivity.
      * rewrite replace_star_plain by exact Hb. rewrite IH. reflexivity.
    + change (String c EmptyString ++ escapeAll p) with (String c (escapeAll p)).
      rewrite replace_star_plain.
      * rewrite IH. reflexivity.
      * intros ->. discriminate E.
Qed.

Lemma append_assoc (a b c : string) : (a ++ b) ++ c = a ++ (b ++ c).
Proof.
  induction a as [|x a IH]; [reflexivity|].
  change (String x ((a ++ b) ++ c) = String x (a ++ (b ++ c))). now rewrite IH.
Qed.

Lemma regexPattern_tokens pattern :
  regexPattern pattern = String "^" (tokens pattern ++ "$").
Proof.
  unfold regexPattern. fold (escapeAll pattern). now rewrite escaped_tokens.
Qed.

(** The token that follows is never taken for a quantifier. *)
Lemma tokens_head pattern :
  exists q rest, tokens pattern ++ "$" = String q rest /\ q <> "*"%char.
Proof.
  destruct pattern as [|c p].
  - exists "$"%char, EmptyString. split; [reflexivity|discriminate].
  - cbn [tokens]. unfold token.
    destruct (Ascii.eqb_spec c "*") as [->|Hc].
    + eexists _, _. split; [reflexivity|discriminate].
    + destruct (isEscaped c).
      * eexists _, _. split; [reflexivity|discriminate].
      * eexists _, _. split; [reflexivity|exact Hc].
Qed.

(** ** Compilation never fails, and yields the expected regex *)

Lemma parse_dot_star rest :
  RegExp.parse (String "." (String "*" rest))
  = cons (RegExp.TStar RegExp.ADot) <$> RegExp.parse rest.
Proof. reflexivity. Qed.

Lemma parse_escape d q rest :
  RegExp.isSyntaxCharacter d = true -> q <> "*"%char ->
  RegExp.parse (String "\" (String d (String q rest)))
  = cons (RegExp.TAtom (RegExp.AChar d)) <$> RegExp.parse (String q rest).
Proof.
  intros Hd Hq%Ascii.eqb_neq. cbn [RegExp.parse].
  change (Ascii.eqb "\" "^") with false.
  change (Ascii.eqb "\" "$") with false.
  change (Ascii.eqb "\" ".") with false.
  change (Ascii.eqb "\" "\") with true. cbv iota.
  now rewrite Hd, Hq.
Qed.

Lemma parse_plain c q rest :
  RegExp.isSyntaxCharacter c = false -> q <> "*"%char ->
  RegExp.parse (String c (String q rest))
  = cons (RegExp.TAtom (RegExp.AChar c)) <$> RegExp.parse (String q rest).
Proof.
  intros Hc Hq%Ascii.eqb_neq.
  assert (Hn : forall d, RegExp.isSyntaxCharacter d = true -> Ascii.eqb c d = false).
  { intros d Hd. apply Ascii.eqb_neq. intros ->. congruence. }
  cbn [RegExp.parse]. rewrite !Hn by reflexivity. now rewrite Hc, Hq.
Qed.

Lemma parse_tokens pattern :
  RegExp.parse (tokens pattern ++ "$")
  = Some (map termOf (list_ascii_of_string pattern) ++ [RegExp.TEnd])%list.
Proof.
  induction pattern as [|c p IH]; [reflexivity|].
  cbn [tokens list_ascii_of_string map]. rewrite append_assoc.
  destruct (tokens_head p) as (q & rest & Hrest & Hq).
  rewrite Hrest in *.
  unfold token, termOf.
  destruct (Ascii.eqb_spec c "*") as [->|Hstar].
  - change (".*" ++ String q rest) with (String "." (String "*" (String q rest))).
    rewrite parse_dot_star, IH. reflexivity.
  - destruct (isEscaped c) eqn:E.
    + change (String "\" (String c EmptyString) ++ String q rest)
        with (String "\" (String c (String q rest))).
      rewrite parse_escape, IH; [reflexivity| |exact Hq].
      now rewrite <- isEscaped_syntax.
    + change (String c EmptyString ++ String q rest) with (String c (String q rest)).
      rewrite parse_plain, IH; [reflexivity| |exact Hq].
      now rewrite <- isEscaped_syntax.
Qed.

Theorem regexPattern_compiles pattern :
  RegExp.parse (regexPattern pattern) = Some (compiled pattern).
Proof.
  rewrite regexPattern_tokens. unfold compiled.
  change (RegExp.parse (String "^" (tokens pattern ++ "$")))
    with (cons RegExp.TStart <$> RegExp.parse (tokens pattern ++ "$")).
  now rewrite parse_tokens.
Qed.

(** ** The compiled regex decides wildcard matching *)

Lemma matchHere_wildcard pattern : forall atStart uri,
  RegExp.matchHere (map termOf (list_ascii_of_string pattern) ++ [RegExp.TEnd])%list atStart uri
  = wildcard dotChar pattern uri.
Proof.
  induction pattern as [|c p IH]; intros atStart uri.
  - cbn. now rewrite andb_true_r.
  - cbn [list_ascii_of_string map app wildcard]. unfold termOf at 1.
    destruct (Ascii.eqb c "*").
    + cbn [RegExp.matchHere]. revert atStart.
      induction uri as [|d uri IHu]; intros atStart.
      * cbn. now rewrite IH.
      * cbn [RegExp.star]. rewrite IH, IHu. reflexivity.
    + cbn [RegExp.matchHere]. destruct uri as [|d uri]; [reflexivity|].
      cbn [RegExp.atomMatches]. now rewrite IH.
Qed.

Lemma search_anchored r : forall uri, RegExp.search (RegExp.TStart :: r) false uri = false.
Proof. induction uri as [|d uri IH]; cbn; [reflexivity|exact IH]. Qed.

Theorem compiled_test pattern uri :
  RegExp.test (compiled pattern) uri = wildcard dotChar pattern uri.
Proof.
  unfold RegExp.test, compiled.
  destruct uri as [|d uri]; cbn [RegExp.search RegExp.matchHere andb].
  - rewrite matchHere_wildcard. now rewrite orb_false_r.
  - rewrite matchHere_wildcard, search_anchored. now rewrite orb_false_r.
Qed.

(** ** [matchesPattern] and the cache *)

Lemma matchesPattern_cacheOk uri pattern regexCache :
  cacheOk regexCache -> cacheOk (snd (matchesPattern uri pattern regexCache)).
Proof.
  intros Hok. unfold matchesPattern.
  destruct (regexCache !! pattern) eqn:Hget; [exact Hok|].
  rewrite regexPattern_compiles. cbn.
  intros p r. rewrite lookup_insert. case_decide as Hp.
  - intros [= <-]. subst p. apply regexPattern_compiles.
  - apply Hok.
Qed.

Lemma cacheOk_empty : cacheOk ∅.
Proof. intros p r. rewrite lookup_empty. discriminate. Qed.

(** On a cache that satisfies its invariant, [matchesPattern] is wildcard
    matching in which [*] stands for characters other than line
    terminators. *)
Theorem matchesPattern_wildcard uri pattern regexCache :
  cacheOk regexCache ->
  fst (matchesPattern uri pattern regexCache) = wildcard dotChar pattern uri.
Proof.
  intros Hok. unfold matchesPattern.
  destruct (regexCache !! pattern) as [regex|] eqn:Hget.
  - apply Hok in Hget. rewrite regexPattern_compiles in Hget.
    injection Hget as <-. apply compiled_test.
  - rewrite regexPattern_compiles. apply compiled_test.
Qed.

(** A match against a pattern without [*] is string equality. *)
Lemma wildcard_literal any pattern : forall uri,
  existsb (Ascii.eqb "*") (list_ascii_of_string pattern) = false ->
  wildcard any pattern uri = String.eqb uri pattern.
Proof.
  induction pattern as [|p pattern IH]; intros uri Hstar.
  - destruct uri; reflexivity.
  - cbn [list_ascii_of_string existsb] in Hstar.
    apply orb_false_iff in Hstar as [Hp Hrest].
    cbn [wildcard]. rewrite Ascii.eqb_sym, Hp.
    destruct uri as [|c uri]; [reflexivity|].
    cbn [String.eqb]. rewrite IH by exact Hrest.
    destruct (Ascii.eqb c p); reflexivity.
Qed.

(** On a URI free of line terminators the two readings of [*] agree. *)
Lemma wildcard_no_line_terminator pattern : forall uri,
  forallb dotChar (list_ascii_of_string uri) = true ->
  wildcard dotChar pattern uri = wildcardSpec pattern uri.
Proof.
  unfold wildcardSpec.
  induction pattern as [|p pattern IH]; intros uri Huri; [reflexivity|].
  cbn [wildcard]. destruct (Ascii.eqb p "*").
  - induction uri as [|c uri IHu].
    + now rewrite IH.
    + cbn [list_ascii_of_string forallb] in Huri.
      apply andb_true_iff in Huri as [Hc Hrest].
      rewrite IH by (cbn [list_ascii_of_string forallb]; now rewrite Hc).
      rewrite Hc, IHu by exact Hrest. reflexivity.
  - destruct uri as [|c uri]; [reflexivity|].
    cbn [list_ascii_of_string forallb] in Huri.
    apply andb_true_iff in Huri as [_ Hrest]. now rewrite IH.
Qed.

(** X3.  The matcher of the specification, met by the code on every URI of the
    embedding, that is of code units below 256, that holds no line feed and
    no carriage return.  (Beyond 255 a [.] refuses U+2028 and U+2029 as
    well; no string of the embedding holds them.) *)
Theorem matchesPattern_spec uri pattern regexCache :
  cacheOk regexCache ->
  forallb dotChar (list_ascii_of_string uri) = true ->
  fst (matchesPattern uri pattern regexCache) = wildcardSpec pattern uri.
Proof.
  intros Hok Huri. rewrite matchesPattern_wildcard by exact Hok.
  now apply wildcard_no_line_terminator.
Qed.

(** X2.  A pattern without [*] matches its own text and nothing else: dots
    and the other regex metacharacters of an entry have no special meaning. *)
Theorem matchesPattern_literal uri pattern regexCache :
  cacheOk regexCache ->
  existsb (Ascii.eqb "*") (list_ascii_of_string pattern) = false ->
  fst (matchesPattern uri pattern regexCache) = String.eqb uri pattern.
Proof.
  intros Hok Hstar. rewrite matchesPattern_wildcard by exact Hok.
  now apply wildcard_literal.
Qed.

Example match_subdomain :
  fst (matchesPattern "https://app.example.com/" "https://*.example.com/*" ∅) = true.
Proof. vm_compute. reflexivity. Qed.

Example match_other_domain :
  fst (matchesPattern "https://evil.com/" "https://*.example.com/*" ∅) = false.
Proof. vm_compute. reflexivity. Qed.

(** C3.  [matchesPattern] at a redirect URI that carries a line feed: the
    regex [^https://app\.example\.com/.*$] does not match it, because [.]
    stops at a line terminator, whereas a [*] that matches zero or more of
    any character accepts it. *)
Theorem wildcard_stops_at_line_feed :
  fst (matchesPattern ("https://app.example.com/a" ++ String lineFeed "b")
         "https://app.example.com/*" ∅) = false
  /\ wildcardSpec "https://app.example.com/*"
       ("https://app.example.com/a" ++ String lineFeed "b") = true.
Proof. split; vm_compute; reflexivity. Qed.

Lemma matchesPattern_hit uri pattern (regexCache : Cache) regex :
  regexCache !! pattern = Some regex ->
  matchesPattern uri pattern regexCache = (RegExp.test regex uri, regexCache).
Proof. intros Hget. unfold matchesPattern. now rewrite Hget. Qed.

Lemma matchesPattern_miss uri pattern (regexCache : Cache) :
  regexCache !! pattern = None ->
  matchesPattern uri pattern regexCache
  = (RegExp.test (compiled pattern) uri, <[pattern := compiled pattern]> regexCache).
Proof.
  intros Hget. unfold matchesPattern. now rewrite Hget, regexPattern_compiles.
Qed.

(** C9.  Two calls of the matcher in a row on the same URI and pattern: the
    second finds the pattern in the cache, answers as the first did and
    leaves the cache as the first left it. *)
Theorem matchesPattern_cached uri pattern (regexCache : Cache) :
  let first := matchesPattern uri pattern regexCache in
  let second := matchesPattern uri pattern (snd first) in
  is_Some (snd first !! pattern)
  /\ fst second = fst first
  /\ snd second = snd first.
Proof.
  cbv zeta. destruct (regexCache !! pattern) as [regex|] eqn:Hget.
  - repeat (rewrite (matchesPattern_hit _ _ _ _ Hget) || cbn [fst snd]).
    rewrite Hget. eauto.
  - rewrite !(matchesPattern_miss _ _ _ Hget). cbn [fst snd].
    rewrite (matchesPattern_hit _ _ _ (compiled pattern)) by apply lookup_insert_eq.
    cbn [fst snd]. rewrite lookup_insert_eq. eauto.
Qed.

(** An entry of the cache is never replaced or removed. *)
Lemma matchesPattern_keeps uri pattern (regexCache : Cache) key regex :
  regexCache !! key = Some regex ->
  snd (matchesPattern uri pattern regexCache) !! key = Some regex.
Proof.
  intros Hkey. unfold matchesPattern.
  destruct (regexCache !! pattern) as [r|] eqn:Hget; [exact Hkey|].
  rewrite regexPattern_compiles. cbn [snd].
  rewrite lookup_insert_ne; [exact Hkey|]. intros ->. congruence.
Qed.

(** C10.  Both validators answer [false] on the empty string, whatever the
    allowlist, and do so without touching the cache, that is before any
    pattern is compiled or looked up. *)
Theorem empty_string_rejected (URL : string -> option Url.t) (allowedUris : string)
    (regexCache : Cache) :
  validateRedirectUri "" allowedUris regexCache = (false, regexCache)
  /\ isAllowedOrigin URL "" allowedUris regexCache = (false, regexCache).
Proof. split; reflexivity. Qed.

(** C2.  The allowlist entry [https://*.example.com/callback]: the URL
    parser lower-cases the host, the placeholder comes back as [wildcard]
    and is not turned into [*] again, so that the origin
    [https://app.example.com] is refused. *)
Theorem wildcard_host_not_restored :
  extractOrigin Url.parse "https://*.example.com/callback"
    = Some "https://wildcard.example.com"
  /\ fst (isAllowedOrigin Url.parse "https://app.example.com"
            "https://*.example.com/callback" ∅) = false.
Proof. split; vm_compute; reflexivity. Qed.

(** An entry whose host has no wildcard is reduced to its origin and
    accepts that origin only. *)
Example origin_without_wildcard :
  extractOrigin Url.parse "https://app.example.com/*" = Some "https://app.example.com"
  /\ fst (isAllowedOrigin Url.parse "https://app.example.com"
            "https://app.example.com/*" ∅) = true
  /\ fst (isAllowedOrigin Url.parse "http://app.example.com"
            "https://app.example.com/*" ∅) = false
  /\ fst (isAllowedOrigin Url.parse "https://app.example.com:8080"
            "https://app.example.com/*" ∅) = false.
Proof. repeat split; vm_compute; reflexivity. Qed.

(** ** The state monad *)

Lemma bind_eq {A B} (m : St A) (k : A -> St B) w :
  bind m k w = k (fst (m w)) (snd (m w)).
Proof. unfold bind. destruct (m w). reflexivity. Qed.

Lemma returned_fst {A} (m : St A) w : fst (returned m w) = Ok (fst (m w)).
Proof. unfold returned. now rewrite bind_eq. Qed.

Lemma returned_snd {A} (m : St A) w : snd (returned m w) = snd (m w).
Proof. unfold returned. now rewrite bind_eq. Qed.

Lemma request_json_Some P text req :
  request_json P text = Some req <-> body_json P text = Some (JsonValue req).
Proof.
  unfold request_json. destruct (body_json P text) as [[|req']|]; split;
    intros H; try discriminate H; now injection H as ->.
Qed.

(** A provider that is a non-empty string. *)
Lemma provider_truthy req :
  Js.truthy (provider req) = true ->
  exists name,
    provider_json req = Some (IsString name)
    /\ provider req = Some name
    /\ isTruthy (provider_json req) = true.
Proof.
  unfold provider. destruct (provider_json req) as [[name|truthy]|]; try discriminate.
  intros H. exists name. repeat split. exact H.
Qed.

Lemma withCache_fst {A} (f : Cache -> A * Cache) w :
  fst (withCache f w) = fst (f (regexCache w)).
Proof. unfold withCache. destruct (f (regexCache w)). reflexivity. Qed.

Lemma withCache_outbound {A} (f : Cache -> A * Cache) w :
  outbound (snd (withCache f w)) = outbound w.
Proof. unfold withCache. destruct (f (regexCache w)). reflexivity. Qed.

Lemma originAllowed_outbound P origin allowedUris w :
  outbound (snd (originAllowed P origin allowedUris w)) = outbound w.
Proof.
  unfold originAllowed.
  destruct (Js.truthy origin && negb (Js.isEmpty allowedUris));
    [apply withCache_outbound|reflexivity].
Qed.

(** A JSON response carries the status and the data it was built from, and
    building it makes no outbound call. *)
Lemma jsonResponse_spec P data st origin allowedUris w :
  status (fst (jsonResponse P data st origin allowedUris w)) = st
  /\ payload (fst (jsonResponse P data st origin allowedUris w)) = Some data
  /\ outbound (snd (jsonResponse P data st origin allowedUris w)) = outbound w.
Proof.
  unfold jsonResponse. rewrite bind_eq. unfold ret. cbn [fst snd status payload].
  repeat split. apply originAllowed_outbound.
Qed.

Lemma logged_error_spec P line message st origin allowedUris w :
  let r := bind (console_error line)
             (fun _ => errorResponse P message st origin allowedUris) w in
  status (fst r) = st
  /\ payload (fst r) = Some (DError message)
  /\ outbound (snd r) = outbound w.
Proof.
  cbv zeta. rewrite bind_eq. unfold errorResponse.
  destruct (jsonResponse_spec P (DError message) st origin allowedUris
              (snd (console_error line w))) as (H1 & H2 & H3).
  now rewrite H1, H2, H3.
Qed.

(** ** Routing *)

Theorem unknown_route P request env w :
  method request <> "OPTIONS" ->
  stripRoutePrefix (url_pathname request) <> "/health" ->
  ~ (stripRoutePrefix (url_pathname request) = "/oauth/token" /\ method request = "POST") ->
  exists resp,
    fst (worker_fetch P request env w) = Ok resp
    /\ status resp = 404%N
    /\ payload resp = Some (DError "Not found").
Proof.
  intros Hopt Hhealth Htoken. unfold worker_fetch.
  destruct (String.eqb_spec (method request) "OPTIONS") as [E|_]; [contradiction|].
  destruct (String.eqb_spec (stripRoutePrefix (url_pathname request)) "/health")
    as [E|_]; [contradiction|].
  destruct (String.eqb_spec (stripRoutePrefix (url_pathname request)) "/oauth/token")
    as [E1|_]; cbn [andb];
    [destruct (String.eqb_spec (method request) "POST") as [E2|_]; [tauto|]|];
    rewrite returned_fst; (eexists; split; [reflexivity|]; split; apply jsonResponse_spec).
Qed.

(** The health route answers every method but OPTIONS. *)
Theorem health_route P request env w :
  method request <> "OPTIONS" ->
  stripRoutePrefix (url_pathname request) = "/health" ->
  exists resp,
    fst (worker_fetch P request env w) = Ok resp
    /\ status resp = 200%N
    /\ payload resp = Some (DHealth "ok" (ENVIRONMENT env)).
Proof.
  intros Hopt Hhealth. unfold worker_fetch.
  destruct (String.eqb_spec (method request) "OPTIONS") as [E|_]; [contradiction|].
  rewrite Hhealth, String.eqb_refl, returned_fst.
  eexists. split; [reflexivity|]. split; apply jsonResponse_spec.
Qed.

(** C8.  A POST to [/health], which is none of the three routes of the
    specification: the worker answers 200 with the health document where the
    specification asks for 404. *)
Theorem health_answers_post P env w :
  let request := {| method := "POST"; url_pathname := "/health";
                    header_origin := None; header_referral_code := None;
                    body := EmptyString |} in
  exists resp,
    fst (worker_fetch P request env w) = Ok resp
    /\ status resp = 200%N
    /\ payload resp = Some (DHealth "ok" (ENVIRONMENT env)).
Proof. cbv zeta. apply health_route; [discriminate|reflexivity]. Qed.

(** ** The provider exchange *)

(** The value [exchangeCode] produces does not depend on the world. *)
Lemma exchangeCode_fst P req env config w :
  fst (exchangeCode P req env config w)
  = if negb (Js.truthy (envGet env (clientIdKey config))) then
      Throw (clientIdKey config ++ " is not configured")
    else if negb (Js.truthy (envGet env (clientSecretKey config))) then
      Throw (clientSecretKey config ++ " is not configured")
    else
      match providerResponse P req env config with
      | Throw err => Throw err
      | Ok response =>
          if negb (resp_ok response) then Throw (exchangeErrorMessage P response)
          else match JSON_parse_token P (resp_text response) with
               | None => Throw "SyntaxError"
               | Some tokenResp =>
                   if negb (Js.truthy (access_token tokenResp)) then
                     Throw "access_token missing in token response"
                   else if negb (Js.truthy (id_token tokenResp)) then
                     Throw "id_token missing in token response"
                   else Ok tokenResp
               end
      end.
Proof.
  unfold exchangeCode, providerResponse.
  destruct (negb (Js.truthy (envGet env (clientIdKey config)))); [reflexivity|].
  destruct (negb (Js.truthy (envGet env (clientSecretKey config)))); [reflexivity|].
  rewrite bind_eq. unfold fetch at 1 2. cbn [fst snd].
  destruct (remote P _) as [response|err]; [|reflexivity].
  destruct (negb (resp_ok response)); [reflexivity|].
  destruct (JSON_parse_token P _) as [tokenResp|]; [|reflexivity].
  destruct (negb (Js.truthy (access_token tokenResp))); [reflexivity|].
  destruct (negb (Js.truthy (id_token tokenResp))); reflexivity.
Qed.

Ltac pick :=
  first [ reflexivity | eassumption
        | split; pick | eexists; pick | left; pick | right; pick ].

Ltac crush :=
  repeat match goal with
         | |- _ /\ _ => split
         | |- _ <-> _ => split
         | |- ~ _ => intro
         | |- _ -> _ => intro
         | |- forall _, _ => intro
         | H : _ \/ _ |- _ => destruct H
         | H : exists _, _ |- _ => destruct H
         | H : _ /\ _ |- _ => destruct H
         | H : Ok _ = Ok _ |- _ => injection H as H; subst
         end;
  try discriminate; try congruence; try solve [pick];
  match goal with H : ~ _ |- _ => exfalso; apply H; pick end.



(** ** The enrichment call *)

Lemma fetchUserInfo_fst P idToken env referralCode w :
  fst (fetchUserInfo P idToken env referralCode w)
  = match backendResponse P idToken env referralCode with
    | Throw err => Throw err
    | Ok response =>
        if negb (resp_ok response) then
          Throw ("User info request failed with status "
                   ++ pretty (resp_status response) ++ ": " ++ resp_text response)
        else match JSON_parse P (resp_text response) with
             | Some userInfo => Ok userInfo
             | None => Throw ("Failed to parse user info response: " ++ resp_text response)
             end
    end.
Proof.
  unfold fetchUserInfo, backendResponse.
  rewrite bind_eq. unfold fetch at 1 2. cbn [fst snd].
  destruct (remote P _) as [response|err]; [|reflexivity].
  destruct (negb (resp_ok response)); [reflexivity|].
  destruct (JSON_parse P _); reflexivity.
Qed.

Lemma fetchUserInfo_Ok P idToken env referralCode w userInfo :
  fst (fetchUserInfo P idToken env referralCode w) = Ok userInfo
  <-> enriched P idToken env referralCode userInfo.
Proof.
  rewrite fetchUserInfo_fst. unfold enriched.
  destruct (backendResponse P idToken env referralCode) as [response|err].
  - destruct (resp_ok response) eqn:Hok; cbn [negb];
      [destruct (JSON_parse P (resp_text response)) as [parsed|] eqn:Hparse|];
      crush.
  - crush.
Qed.

Lemma fetchUserInfo_Throw P idToken env referralCode w :
  (exists message, fst (fetchUserInfo P idToken env referralCode w) = Throw message)
  <-> enrichmentFailed P idToken env referralCode.
Proof.
  rewrite fetchUserInfo_fst. unfold enrichmentFailed.
  destruct (backendResponse P idToken env referralCode) as [response|err].
  - destruct (resp_ok response) eqn:Hok; cbn [negb];
      [destruct (JSON_parse P (resp_text response)) as [parsed|] eqn:Hparse|];
      crush.
  - crush.
Qed.

Lemma exchangeCode_Ok P req env config w tokenResp :
  fst (exchangeCode P req env config w) = Ok tokenResp ->
  Js.truthy (access_token tokenResp) = true /\ Js.truthy (id_token tokenResp) = true.
Proof.
  rewrite exchangeCode_fst.
  destruct (negb (Js.truthy (envGet env (clientIdKey config)))); [discriminate|].
  destruct (negb (Js.truthy (envGet env (clientSecretKey config)))); [discriminate|].
  destruct (providerResponse P req env config) as [response|err]; [|discriminate].
  destruct (negb (resp_ok _)); [discriminate|].
  destruct (JSON_parse_token P _) as [t|]; [|discriminate].
  destruct (Js.truthy (access_token t)) eqn:Hat; cbn [negb]; [|discriminate].
  destruct (Js.truthy (id_token t)) eqn:Hit; cbn [negb]; [|discriminate].
  intros [= <-]. split; assumption.
Qed.

(** ** The orchestrator *)

Lemma errorResponse_isError P message st origin allowedUris w :
  st = 400%N \/ st = 500%N ->
  isErrorResponse (fst (errorResponse P message st origin allowedUris w)).
Proof.
  intros Hst. unfold errorResponse.
  destruct (jsonResponse_spec P (DError message) st origin allowedUris w) as (H1 & H2 & _).
  split; [now rewrite H1|eauto].
Qed.

Lemma logged_error_isError P line message st origin allowedUris w :
  st = 400%N \/ st = 500%N ->
  isErrorResponse
    (fst (bind (console_error line)
            (fun _ => errorResponse P message st origin allowedUris) w)).
Proof.
  intros Hst.
  destruct (logged_error_spec P line message st origin allowedUris w) as (H1 & H2 & _).
  split; [now rewrite H1|eauto].
Qed.

(** What [enrich] answers, by the outcome of the enrichment call. *)
Lemma enrich_spec P request env origin tokenResp w :
  Js.truthy (id_token tokenResp) = true ->
  let idToken := default EmptyString (id_token tokenResp) in
  let resp := fst (enrich P request env origin tokenResp w) in
  (exists userInfo,
     enriched P idToken env (referralCodeOf request) userInfo
     /\ status resp = 200%N
     /\ payload resp = Some (DToken (set_user_info tokenResp userInfo)))
  \/ (enrichmentFailed P idToken env (referralCodeOf request)
      /\ status resp = 500%N
      /\ payload resp = Some (DError "Failed to retrieve user information")).
Proof.
  intros Hid. cbv zeta. unfold enrich. rewrite Hid. cbn [negb].
  rewrite bind_eq.
  destruct (fst (fetchUserInfo P _ env (referralCodeOf request) w)) as [userInfo|err] eqn:E.
  - left. exists userInfo. split; [now apply fetchUserInfo_Ok in E|].
    split; apply jsonResponse_spec.
  - right. split.
    + eapply fetchUserInfo_Throw. eauto.
    + split; apply logged_error_spec.
Qed.

Lemma enriched_not_failed P idToken env referralCode userInfo :
  enriched P idToken env referralCode userInfo ->
  ~ enrichmentFailed P idToken env referralCode.
Proof.
  intros (response & H & Hok & Hparse) [[err H']|(response' & H' & Hbad)];
    [congruence|].
  assert (response' = response) by congruence. subst response'.
  destruct Hbad; congruence.
Qed.

(** What the outer [catch] makes of an error. *)
Lemma exchanged_thrown P request env origin err w :
  exchanged P request env origin (ret (Throw err)) w
  = bind (console_error ("[" ++ ENVIRONMENT env ++ "] OAuth token exchange error: " ++ err))
      (fun _ => errorResponse P "Token exchange failed" 400 origin
                  (ALLOWED_REDIRECT_URIS env)) w.
Proof. unfold exchanged. now rewrite bind_eq. Qed.

Lemma exchanged_outcome P request env origin req config w :
  let resp := fst (exchanged P request env origin (exchangeCode P req env config) w) in
  isTokenResponse P request env resp \/ isErrorResponse resp.
Proof.
  cbv zeta. unfold exchanged. rewrite bind_eq.
  destruct (fst (exchangeCode P req env config w)) as [tokenResp|err] eqn:E.
  - apply exchangeCode_Ok in E as [Hat Hid].
    destruct (enrich_spec P request env origin tokenResp
                (snd (exchangeCode P req env config w)) Hid)
      as [(userInfo & Hen & Hst & Hpay)|(_ & Hst & Hpay)].
    + left. split; [exact Hst|]. exists (set_user_info tokenResp userInfo), userInfo.
      repeat split; try assumption.
    + right. split; [now right|eauto].
  - right. apply logged_error_isError. now left.
Qed.

(** The handler leaves a request unanswered on a body that is [null], and on
    no other; what it answers is a token response or an error response. *)
Lemma handleTokenExchange_outcome P request env origin w :
  match fst (handleTokenExchange P request env origin w) with
  | Ok resp =>
      body_json P (body request) <> Some JsonNull
      /\ (isTokenResponse P request env resp \/ isErrorResponse resp)
  | Throw message =>
      body_json P (body request) = Some JsonNull
      /\ message = "TypeError: Cannot read properties of null (reading 'code')"
  end.
Proof.
  unfold handleTokenExchange.
  destruct (body_json P (body request)) as [[|req]|];
    [split; reflexivity| |];
    rewrite returned_fst; (split; [discriminate|]);
    [|right; apply errorResponse_isError; now left].
  destruct (Js.truthy (code req)); cbn [negb];
    [|right; apply errorResponse_isError; now left].
  destruct (Js.truthy (redirect_uri req)); cbn [negb];
    [|right; apply errorResponse_isError; now left].
  destruct (isTruthy (provider_json req)); cbn [negb];
    [|right; apply errorResponse_isError; now left].
  rewrite bind_eq. destruct (fst (withCache _ w)); cbn [negb];
    [|right; apply logged_error_isError; now left].
  destruct (toLowerCaseOf (provider_json req)) as [provider|err].
  - destruct (String.eqb _ "google"); [apply exchanged_outcome|].
    destruct (String.eqb _ "outlook" || String.eqb _ "microsoft");
      [apply exchanged_outcome|].
    right; apply errorResponse_isError; now left.
  - rewrite exchanged_thrown. right. apply logged_error_isError. now left.
Qed.


(** The request of C1 that gets no answer: a POST to [/oauth/token] whose
    body is the text [null]. *)
Lemma null_body_run :
  fst (worker_fetch nullPlatform sampleRequest sampleEnv freshWorld)
  = Throw "TypeError: Cannot read properties of null (reading 'code')".
Proof. reflexivity. Qed.

(** ** Redirect validation *)

Lemma firstMatch_matches uri patterns : forall regexCache : Cache,
  cacheOk regexCache ->
  fst (firstMatch (fun pattern => matchesPattern uri pattern) patterns regexCache)
  = existsb (fun pattern => wildcard dotChar pattern uri) patterns.
Proof.
  induction patterns as [|pattern rest IH]; intros regexCache Hok; [reflexivity|].
  cbn [firstMatch existsb].
  pose proof (matchesPattern_wildcard uri pattern regexCache Hok) as Hm.
  pose proof (matchesPattern_cacheOk uri pattern regexCache Hok) as Hok'.
  destruct (matchesPattern uri pattern regexCache) as [ok regexCache'].
  cbn [fst snd] in Hm, Hok'. rewrite <- Hm.
  destruct ok; [reflexivity|]. cbn [orb]. now apply IH.
Qed.

(** [validateRedirectUri] accepts a URI when it is not empty and one of the
    trimmed entries of the allowlist matches it. *)
Theorem validateRedirectUri_spec redirectUri allowedUris (regexCache : Cache) :
  cacheOk regexCache ->
  fst (validateRedirectUri redirectUri allowedUris regexCache)
  = negb (Js.isEmpty redirectUri)
    && existsb (fun pattern => wildcard dotChar pattern redirectUri)
         (map Js.trim (Js.split "," allowedUris)).
Proof.
  intros Hok. unfold validateRedirectUri.
  destruct (Js.isEmpty redirectUri); [reflexivity|].
  cbn [negb andb]. now apply firstMatch_matches.
Qed.

(** A URI the code matches is matched under the reading of the
    specification as well. *)
Lemma wildcard_weaken pattern : forall uri,
  wildcard dotChar pattern uri = true -> wildcardSpec pattern uri = true.
Proof.
  unfold wildcardSpec.
  induction pattern as [|p pattern IH]; intros uri; [trivial|].
  cbn [wildcard]. destruct (Ascii.eqb p "*").
  - induction uri as [|c uri IHu]; intros H.
    + apply orb_true_iff in H as [H|H]; [|discriminate].
      now rewrite (IH _ H).
    + apply orb_true_iff in H as [H|H]; [now rewrite (IH _ H)|].
      apply andb_true_iff in H as [_ H]. rewrite (IHu H).
      cbn [andb]. now rewrite orb_true_r.
  - destruct uri as [|c uri]; [trivial|].
    intros H. apply andb_true_iff in H as [Hc H]. now rewrite Hc, (IH _ H).
Qed.

Lemma existsb_weaken {A} (f g : A -> bool) l :
  (forall x, f x = true -> g x = true) -> existsb g l = false -> existsb f l = false.
Proof.
  intros Hfg. induction l as [|x l IH]; [trivial|]. cbn [existsb].
  intros H. apply orb_false_iff in H as [Hx Hl].
  rewrite (IH Hl). destruct (f x) eqn:E; [|reflexivity].
  apply Hfg in E. congruence.
Qed.

Lemma returned_bind {A B} (m : St A) (k : A -> St B) w :
  returned (bind m k) w = returned (k (fst (m w))) (snd (m w)).
Proof. unfold returned. now rewrite !bind_eq. Qed.

(** The handler up to the provider switch. *)
Lemma handle_switch P request env origin w req :
  request_json P (body request) = Some req ->
  Js.truthy (code req) = true ->
  Js.truthy (redirect_uri req) = true ->
  isTruthy (provider_json req) = true ->
  fst (validateRedirectUri (default EmptyString (redirect_uri req))
         (ALLOWED_REDIRECT_URIS env) (regexCache w)) = true ->
  handleTokenExchange P request env origin w
  = let w1 := snd (withCache (validateRedirectUri (default EmptyString (redirect_uri req))
                                (ALLOWED_REDIRECT_URIS env)) w) in
    returned
      (match toLowerCaseOf (provider_json req) with
       | Throw err => exchanged P request env origin (ret (Throw err))
       | Ok provider =>
           if String.eqb provider "google" then
             exchanged P request env origin (exchangeCode P req env googleConfig)
           else if String.eqb provider "outlook" || String.eqb provider "microsoft" then
             exchanged P request env origin (exchangeCode P req env microsoftConfig)
           else
             errorResponse P ("Unsupported OAuth provider: " ++ provider) 400 origin
               (ALLOWED_REDIRECT_URIS env)
       end) w1.
Proof.
  intros Hreq Hcode Hredirect Hprovider Hvalid. unfold handleTokenExchange.
  apply request_json_Some in Hreq. rewrite Hreq, Hcode, Hredirect, Hprovider. cbn [negb].
  rewrite returned_bind, withCache_fst, Hvalid. reflexivity.
Qed.

(** The same for a provider that is a string. *)
Lemma handle_dispatch P request env origin w req :
  request_json P (body request) = Some req ->
  Js.truthy (code req) = true ->
  Js.truthy (redirect_uri req) = true ->
  Js.truthy (provider req) = true ->
  fst (validateRedirectUri (default EmptyString (redirect_uri req))
         (ALLOWED_REDIRECT_URIS env) (regexCache w)) = true ->
  handleTokenExchange P request env origin w
  = let provider := Js.toLowerCase (default EmptyString (provider req)) in
    let w1 := snd (withCache (validateRedirectUri (default EmptyString (redirect_uri req))
                                (ALLOWED_REDIRECT_URIS env)) w) in
    returned
      (if String.eqb provider "google" then
         exchanged P request env origin (exchangeCode P req env googleConfig)
       else if String.eqb provider "outlook" || String.eqb provider "microsoft" then
         exchanged P request env origin (exchangeCode P req env microsoftConfig)
       else
         errorResponse P ("Unsupported OAuth provider: " ++ provider) 400 origin
           (ALLOWED_REDIRECT_URIS env)) w1.
Proof.
  intros Hreq Hcode Hredirect Hprovider Hvalid.
  destruct (provider_truthy req Hprovider) as (name & Hjson & Hname & Htruthy).
  rewrite (handle_switch P request env origin w req Hreq Hcode Hredirect Htruthy Hvalid).
  rewrite Hjson, Hname. reflexivity.
Qed.

(** C4.  A request with its three fields present whose [redirect_uri] is
    matched by no entry of the allowlist is answered 400 with
    [{error: "invalid redirect_uri"}], and handling it makes no outbound
    call. *)
Theorem disallowed_redirect_rejected P request env origin w req :
  request_json P (body request) = Some req ->
  Js.truthy (code req) = true ->
  Js.truthy (redirect_uri req) = true ->
  Js.truthy (provider req) = true ->
  cacheOk (regexCache w) ->
  existsb (fun pattern => wildcardSpec pattern (default EmptyString (redirect_uri req)))
    (map Js.trim (Js.split "," (ALLOWED_REDIRECT_URIS env))) = false ->
  exists resp,
    fst (handleTokenExchange P request env origin w) = Ok resp
    /\ status resp = 400%N
    /\ payload resp = Some (DError "invalid redirect_uri")
    /\ outbound (snd (handleTokenExchange P request env origin w)) = outbound w.
Proof.
  intros Hreq Hcode Hredirect Hprovider Hok Hnone.
  assert (Hvalid : fst (validateRedirectUri (default EmptyString (redirect_uri req))
                          (ALLOWED_REDIRECT_URIS env) (regexCache w)) = false).
  { rewrite validateRedirectUri_spec by exact Hok.
    rewrite (existsb_weaken _ _ _ (fun p => wildcard_weaken p _) Hnone).
    apply andb_false_r. }
  destruct (provider_truthy req Hprovider) as (name & _ & _ & Htruthy).
  unfold handleTokenExchange.
  apply request_json_Some in Hreq. rewrite Hreq, Hcode, Hredirect, Htruthy. cbn [negb].
  rewrite returned_fst, returned_snd.
  rewrite bind_eq, withCache_fst, Hvalid. cbn [negb].
  match goal with
  | |- context [bind (console_error ?line) _ ?w1] =>
      destruct (logged_error_spec P line "invalid redirect_uri" 400
                  origin (ALLOWED_REDIRECT_URIS env) w1) as (H1 & H2 & H3)
  end.
  eexists. split; [reflexivity|]. split; [exact H1|]. split; [exact H2|].
  rewrite H3. apply withCache_outbound.
Qed.

(** The spec's own scenario: [https://attacker.example/] against the
    allowlist [https://app.example.com/*]. *)
Lemma disallowed_redirect_rejected_witness :
  let P := samplePlatform (sampleExchange "https://attacker.example/" "google") 200 in
  exists resp,
    fst (handleTokenExchange P sampleRequest sampleEnv
           (header_origin sampleRequest) freshWorld) = Ok resp
    /\ status resp = 400%N
    /\ payload resp = Some (DError "invalid redirect_uri")
    /\ outbound (snd (handleTokenExchange P sampleRequest sampleEnv
                        (header_origin sampleRequest) freshWorld)) = outbound freshWorld.
Proof.
  cbv zeta.
  apply (disallowed_redirect_rejected
           (samplePlatform (sampleExchange "https://attacker.example/" "google") 200)
           sampleRequest sampleEnv (header_origin sampleRequest) freshWorld
           (sampleExchange "https://attacker.example/" "google"));
    try reflexivity.
  apply cacheOk_empty.
Defined.

(** ** All-or-nothing enrichment *)

(** C5.  When the exchange with the provider returned tokens and the
    enrichment call fails, be it a call that is rejected, a backend answer
    outside 2xx or a body that does not parse, the request is answered 500
    with [{error: "Failed to retrieve user information"}]; the body is the
    error object and holds no token. *)
Theorem enrichment_failure_is_500 P request env origin w req config tokenResp w' :
  request_json P (body request) = Some req ->
  Js.truthy (code req) = true ->
  Js.truthy (redirect_uri req) = true ->
  Js.truthy (provider req) = true ->
  fst (validateRedirectUri (default EmptyString (redirect_uri req))
         (ALLOWED_REDIRECT_URIS env) (regexCache w)) = true ->
  (Js.toLowerCase (default EmptyString (provider req)) = "google" /\ config = googleConfig)
  \/ ((Js.toLowerCase (default EmptyString (provider req)) = "outlook"
       \/ Js.toLowerCase (default EmptyString (provider req)) = "microsoft")
      /\ config = microsoftConfig) ->
  fst (exchangeCode P req env config w') = Ok tokenResp ->
  enrichmentFailed P (default EmptyString (id_token tokenResp)) env (referralCodeOf request) ->
  exists resp,
    fst (handleTokenExchange P request env origin w) = Ok resp
    /\ status resp = 500%N
    /\ payload resp = Some (DError "Failed to retrieve user information")
    /\ forall tokens, payload resp <> Some (DToken tokens).
Proof.
  intros Hreq Hcode Hredirect Hprovider Hvalid Hdispatch Hexchange Hfailed.
  assert (Hanswer :
    handleTokenExchange P request env origin w
    = returned (exchanged P request env origin (exchangeCode P req env config))
        (snd (withCache (validateRedirectUri (default EmptyString (redirect_uri req))
                           (ALLOWED_REDIRECT_URIS env)) w))).
  { rewrite (handle_dispatch P request env origin w req
               Hreq Hcode Hredirect Hprovider Hvalid). cbv zeta.
    destruct Hdispatch as [[-> ->]|[[-> | ->] ->]]; reflexivity. }
  rewrite Hanswer, returned_fst. unfold exchanged. rewrite bind_eq.
  rewrite exchangeCode_fst in Hexchange |- *. rewrite Hexchange.
  rewrite <- exchangeCode_fst with (w := w') in Hexchange.
  apply exchangeCode_Ok in Hexchange as [_ Hid].
  match goal with
  | |- context [enrich P request env origin tokenResp ?w2] =>
      destruct (enrich_spec P request env origin tokenResp w2 Hid)
        as [(userInfo & Hen & _)|(_ & Hst & Hpay)]
  end.
  - exfalso. exact (enriched_not_failed _ _ _ _ _ Hen Hfailed).
  - eexists. split; [reflexivity|]. split; [exact Hst|]. split; [exact Hpay|].
    intros tokens. rewrite Hpay. discriminate.
Qed.

Lemma enrichment_failure_is_500_witness :
  let req := sampleExchange "https://app.example.com/callback" "google" in
  let P := samplePlatform req 503 in
  exists resp,
    fst (handleTokenExchange P sampleRequest sampleEnv
           (header_origin sampleRequest) freshWorld) = Ok resp
    /\ status resp = 500%N
    /\ payload resp = Some (DError "Failed to retrieve user information")
    /\ forall tokens, payload resp <> Some (DToken tokens).
Proof.
  cbv zeta.
  apply (enrichment_failure_is_500
           (samplePlatform (sampleExchange "https://app.example.com/callback" "google") 503)
           sampleRequest sampleEnv (header_origin sampleRequest) freshWorld
           (sampleExchange "https://app.example.com/callback" "google")
           googleConfig sampleTokens freshWorld);
    [reflexivity|reflexivity|reflexivity|reflexivity|vm_compute; reflexivity
    |left; split; reflexivity|reflexivity|].
  right. eexists. split; [reflexivity|]. left. reflexivity.
Defined.

(** ** The cache invariant is kept by the whole worker *)

Lemma preserves_ret {A} (a : A) : preserves (ret a).
Proof. intros w Hw. exact Hw. Qed.

Lemma preserves_bind {A B} (m : St A) (k : A -> St B) :
  preserves m -> (forall a, preserves (k a)) -> preserves (bind m k).
Proof. intros Hm Hk w Hw. rewrite bind_eq. apply Hk, Hm, Hw. Qed.

Lemma preserves_console_error line : preserves (console_error line).
Proof. intros w Hw. exact Hw. Qed.

Lemma preserves_fetch P call : preserves (fetch P call).
Proof. intros w Hw. exact Hw. Qed.

Lemma preserves_withCache {A} (f : Cache -> A * Cache) :
  (forall c : Cache, cacheOk c -> cacheOk (snd (f c))) -> preserves (withCache f).
Proof.
  intros Hf w Hw. unfold withCache. specialize (Hf _ Hw).
  destruct (f (regexCache w)). exact Hf.
Qed.

Lemma firstMatch_cacheOk test patterns :
  (forall pattern (c : Cache), cacheOk c -> cacheOk (snd (test pattern c))) ->
  forall c : Cache, cacheOk c -> cacheOk (snd (firstMatch test patterns c)).
Proof.
  intros Htest. induction patterns as [|pattern rest IH]; intros c Hc; [exact Hc|].
  cbn [firstMatch]. specialize (Htest pattern c Hc).
  destruct (test pattern c) as [ok c']. cbn [snd] in Htest.
  destruct ok; [exact Htest|]. now apply IH.
Qed.

Lemma validateRedirectUri_cacheOk redirectUri allowedUris (c : Cache) :
  cacheOk c -> cacheOk (snd (validateRedirectUri redirectUri allowedUris c)).
Proof.
  intros Hc. unfold validateRedirectUri.
  destruct (Js.isEmpty redirectUri); [exact Hc|].
  apply firstMatch_cacheOk; [|exact Hc].
  intros pattern c' Hc'. now apply matchesPattern_cacheOk.
Qed.

Lemma isAllowedOrigin_cacheOk URL origin allowedUris (c : Cache) :
  cacheOk c -> cacheOk (snd (isAllowedOrigin URL origin allowedUris c)).
Proof.
  intros Hc. unfold isAllowedOrigin.
  destruct (Js.isEmpty origin); [exact Hc|].
  apply firstMatch_cacheOk; [|exact Hc].
  intros pattern c' Hc'.
  destruct (Js.truthy (extractOrigin URL pattern)); [|exact Hc'].
  now apply matchesPattern_cacheOk.
Qed.

Lemma preserves_jsonResponse P data st origin allowedUris :
  preserves (jsonResponse P data st origin allowedUris).
Proof.
  unfold jsonResponse. apply preserves_bind; [|intros; apply preserves_ret].
  unfold originAllowed.
  destruct (Js.truthy origin && negb (Js.isEmpty allowedUris)); [|apply preserves_ret].
  apply preserves_withCache. intros c Hc. now apply isAllowedOrigin_cacheOk.
Qed.

Lemma preserves_exchangeCode P req env config : preserves (exchangeCode P req env config).
Proof.
  unfold exchangeCode.
  destruct (negb (Js.truthy (envGet env (clientIdKey config)))); [apply preserves_ret|].
  destruct (negb (Js.truthy (envGet env (clientSecretKey config)))); [apply preserves_ret|].
  apply preserves_bind; [apply preserves_fetch|]. intros [response|err];
    [|apply preserves_ret].
  destruct (negb (resp_ok response)); [apply preserves_ret|].
  destruct (JSON_parse_token P (resp_text response)) as [t|]; [|apply preserves_ret].
  destruct (negb (Js.truthy (access_token t))); [apply preserves_ret|].
  destruct (negb (Js.truthy (id_token t))); apply preserves_ret.
Qed.

Lemma preserves_fetchUserInfo P idToken env referralCode :
  preserves (fetchUserInfo P idToken env referralCode).
Proof.
  unfold fetchUserInfo. apply preserves_bind; [apply preserves_fetch|].
  intros [response|err]; [|apply preserves_ret].
  destruct (negb (resp_ok response)); [apply preserves_ret|].
  destruct (JSON_parse P (resp_text response)); apply preserves_ret.
Qed.

Lemma preserves_logged_error P line message st origin allowedUris :
  preserves (bind (console_error line)
               (fun _ => errorResponse P message st origin allowedUris)).
Proof.
  apply preserves_bind; [apply preserves_console_error|].
  intros _. apply preserves_jsonResponse.
Qed.

Lemma preserves_returned {A} (m : St A) : preserves m -> preserves (returned m).
Proof. intros Hm. apply preserves_bind; [exact Hm|]. intros a. apply preserves_ret. Qed.

Lemma preserves_exchanged P request env origin exchange :
  preserves exchange -> preserves (exchanged P request env origin exchange).
Proof.
  intros Hexchange.
  unfold exchanged. apply preserves_bind; [exact Hexchange|].
  intros [tokenResp|err]; [|apply preserves_logged_error].
  unfold enrich.
  destruct (negb (Js.truthy (id_token tokenResp))); [apply preserves_logged_error|].
  apply preserves_bind; [apply preserves_fetchUserInfo|].
  intros [userInfo|err]; [apply preserves_jsonResponse|apply preserves_logged_error].
Qed.

Lemma preserves_handleTokenExchange P request env origin :
  preserves (handleTokenExchange P request env origin).
Proof.
  unfold handleTokenExchange.
  destruct (body_json P (body request)) as [[|req]|];
    [apply preserves_ret| |apply preserves_returned, preserves_jsonResponse].
  apply preserves_returned.
  destruct (negb (Js.truthy (code req))); [apply preserves_jsonResponse|].
  destruct (negb (Js.truthy (redirect_uri req))); [apply preserves_jsonResponse|].
  destruct (negb (isTruthy (provider_json req))); [apply preserves_jsonResponse|].
  apply preserves_bind.
  - apply preserves_withCache. intros c Hc. now apply validateRedirectUri_cacheOk.
  - intros valid. destruct (negb valid); [apply preserves_logged_error|].
    destruct (toLowerCaseOf (provider_json req)) as [provider|err];
      [|apply preserves_exchanged, preserves_ret].
    destruct (String.eqb _ "google");
      [apply preserves_exchanged, preserves_exchangeCode|].
    destruct (String.eqb _ "outlook" || String.eqb _ "microsoft");
      [apply preserves_exchanged, preserves_exchangeCode|apply preserves_jsonResponse].
Qed.

(** Starting from the empty cache of a fresh isolate, every request is
    served on a cache that satisfies its invariant. *)
Theorem worker_fetch_preserves P request env : preserves (worker_fetch P request env).
Proof.
  unfold worker_fetch.
  destruct (String.eqb (method request) "OPTIONS").
  - apply preserves_returned.
    unfold handleCors. apply preserves_bind; [|intros; apply preserves_ret].
    destruct (Js.truthy (header_origin request)); [|apply preserves_ret].
    apply preserves_withCache. intros c Hc. now apply isAllowedOrigin_cacheOk.
  - destruct (String.eqb _ "/health"); [apply preserves_returned, preserves_jsonResponse|].
    destruct (String.eqb _ "/oauth/token" && String.eqb (method request) "POST");
      [apply preserves_handleTokenExchange
      |apply preserves_returned, preserves_jsonResponse].
Qed.

(** ** The invariant, seen from the worker *)

(** Whatever the route, a response of the worker whose body is a token
    object is a token response: it carries both tokens and the profile. *)
Theorem worker_never_surfaces_partial_tokens P request env w resp tokens :
  fst (worker_fetch P request env w) = Ok resp ->
  payload resp = Some (DToken tokens) ->
  isTokenResponse P request env resp.
Proof.
  unfold worker_fetch.
  destruct (String.eqb (method request) "OPTIONS").
  - rewrite returned_fst. intros [= <-]. unfold handleCors. rewrite bind_eq. discriminate.
  - destruct (String.eqb _ "/health").
    + rewrite returned_fst. intros [= <-].
      destruct (jsonResponse_spec P (DHealth "ok" (ENVIRONMENT env)) 200
                  (header_origin request) (ALLOWED_REDIRECT_URIS env) w) as (_ & H & _).
      rewrite H. discriminate.
    + destruct (String.eqb _ "/oauth/token" && String.eqb (method request) "POST").
      * intros Hresp Hpay.
        pose proof (handleTokenExchange_outcome P request env (header_origin request) w)
          as H.
        rewrite Hresp in H. destruct H as [_ [H|[_ [message H]]]]; [exact H|congruence].
      * rewrite returned_fst. intros [= <-].
        destruct (jsonResponse_spec P (DError "Not found") 404
                    (header_origin request) (ALLOWED_REDIRECT_URIS env) w) as (_ & H & _).
        rewrite H. discriminate.
Qed.

(** X4.  Under the invariant the answer of the matcher is a function of the URI
    and the pattern alone: no state of the cache changes it. *)
Theorem matchesPattern_cache_independent uri pattern (c1 c2 : Cache) :
  cacheOk c1 -> cacheOk c2 ->
  fst (matchesPattern uri pattern c1) = fst (matchesPattern uri pattern c2).
Proof.
  intros H1 H2. now rewrite !matchesPattern_wildcard by assumption.
Qed.

(** ** Traces *)

Lemma extends_refl w : extends w w [] [].
Proof. split; now rewrite app_nil_r. Qed.

Lemma extends_trans w w1 w2 c1 l1 c2 l2 :
  extends w w1 c1 l1 -> extends w1 w2 c2 l2 -> extends w w2 (c1 ++ c2) (l1 ++ l2).
Proof.
  intros [H1 H2] [H3 H4]. split.
  - now rewrite H3, H1, <- app_assoc.
  - now rewrite H4, H2, <- app_assoc.
Qed.

Lemma extends_step w w1 w2 c1 l1 c2 l2 c l :
  extends w w1 c1 l1 -> extends w1 w2 c2 l2 ->
  c = (c1 ++ c2)%list -> l = (l1 ++ l2)%list -> extends w w2 c l.
Proof. intros H1 H2 -> ->. eapply extends_trans; eassumption. Qed.

Lemma withCache_extends {A} (f : Cache -> A * Cache) w :
  extends w (snd (withCache f w)) [] [].
Proof.
  unfold withCache. destruct (f (regexCache w)). cbn [snd].
  split; cbn; now rewrite app_nil_r.
Qed.

Lemma jsonResponse_extends P data st origin allowedUris w :
  extends w (snd (jsonResponse P data st origin allowedUris w)) [] [].
Proof.
  unfold jsonResponse. rewrite bind_eq. unfold ret. cbn [snd].
  unfold originAllowed.
  destruct (Js.truthy origin && negb (Js.isEmpty allowedUris));
    [apply withCache_extends|apply extends_refl].
Qed.

Lemma console_error_extends line w :
  extends w (snd (console_error line w)) [] [line].
Proof. split; cbn; [now rewrite app_nil_r|reflexivity]. Qed.

Lemma logged_error_extends P line message st origin allowedUris w :
  extends w
    (snd (bind (console_error line)
            (fun _ => errorResponse P message st origin allowedUris) w))
    [] [line].
Proof.
  rewrite bind_eq. unfold errorResponse.
  eapply extends_step;
    [apply console_error_extends|apply jsonResponse_extends|reflexivity|reflexivity].
Qed.

Ltac chain :=
  first [ eassumption
        | apply jsonResponse_extends
        | apply logged_error_extends
        | apply console_error_extends
        | eapply extends_step;
          [ eassumption | chain
          | rewrite ?app_nil_r, ?app_nil_l; reflexivity
          | rewrite ?app_nil_r, ?app_nil_l; reflexivity ] ].

Lemma fetch_extends P call w : extends w (snd (fetch P call w)) [call] [].
Proof. split; cbn; [reflexivity|now rewrite app_nil_r]. Qed.

Lemma exchangeCode_extends P req env config w :
  extends w (snd (exchangeCode P req env config w)) (exchangeCalls req env config) [].
Proof.
  unfold exchangeCode, exchangeCalls.
  destruct (Js.truthy (envGet env (clientIdKey config))); cbn [negb andb];
    [|apply extends_refl].
  destruct (Js.truthy (envGet env (clientSecretKey config))); cbn [negb];
    [|apply extends_refl].
  rewrite bind_eq.
  match goal with
  | |- context [fetch P ?call w] => pose proof (fetch_extends P call w) as H
  end.
  destruct (fst (fetch P _ w)) as [response|err]; [|exact H].
  destruct (negb (resp_ok _)); [exact H|].
  destruct (JSON_parse_token P _) as [t|]; [|exact H].
  destruct (negb (Js.truthy (access_token t))); [exact H|].
  destruct (negb (Js.truthy (id_token t))); exact H.
Qed.

Lemma fetchUserInfo_extends P idToken env referralCode w :
  extends w (snd (fetchUserInfo P idToken env referralCode w))
    [userInfoRequest idToken env referralCode] [].
Proof.
  unfold fetchUserInfo. rewrite bind_eq.
  pose proof (fetch_extends P (userInfoRequest idToken env referralCode) w) as H.
  destruct (fst (fetch P _ w)) as [response|err]; [|exact H].
  destruct (negb (resp_ok _)); [exact H|].
  destruct (JSON_parse P _); exact H.
Qed.

Lemma exchangeCode_world P req env config w w' :
  fst (exchangeCode P req env config w) = fst (exchangeCode P req env config w').
Proof. now rewrite !exchangeCode_fst. Qed.

Lemma fetchUserInfo_world P idToken env referralCode w w' :
  fst (fetchUserInfo P idToken env referralCode w)
  = fst (fetchUserInfo P idToken env referralCode w').
Proof. now rewrite !fetchUserInfo_fst. Qed.

Lemma answers_jsonResponse P data st origin allowedUris w :
  answers (Ok (fst (jsonResponse P data st origin allowedUris w))) st data.
Proof. eexists. split; [reflexivity|]. split; apply jsonResponse_spec. Qed.

Lemma answers_logged_error P line message st origin allowedUris w :
  answers
    (Ok (fst (bind (console_error line)
                (fun _ => errorResponse P message st origin allowedUris) w)))
    st (DError message).
Proof. eexists. split; [reflexivity|]. split; apply logged_error_spec. Qed.

(** What follows an accepted request whose provider selects [config]. *)
Lemma exchanged_paths P request env origin w w1 req config :
  accepted P request env w req ->
  dispatched req config ->
  extends w w1 [] [] ->
  exists calls lines,
    Handled P request env w
      (Ok (fst (exchanged P request env origin (exchangeCode P req env config) w1)))
      calls lines
    /\ extends w
         (snd (exchanged P request env origin (exchangeCode P req env config) w1))
         calls lines.
Proof.
  intros Hacc Hdisp Hw1. unfold exchanged. rewrite bind_eq.
  pose proof (exchangeCode_extends P req env config w1) as Hex.
  destruct (fst (exchangeCode P req env config w1)) as [tokenResp|message] eqn:E.
  - rewrite (exchangeCode_world _ _ _ _ w1 w) in E.
    destruct (exchangeCode_Ok _ _ _ _ _ _ E) as [_ Hid].
    unfold enrich. rewrite Hid. cbn [negb]. rewrite bind_eq.
    set (w2 := snd (exchangeCode P req env config w1)) in *.
    pose proof (fetchUserInfo_extends P (default EmptyString (id_token tokenResp)) env
                  (referralCodeOf request) w2) as Hfu.
    destruct (fst (fetchUserInfo P _ env (referralCodeOf request) w2))
      as [userInfo|message] eqn:F;
      rewrite (fetchUserInfo_world _ _ _ _ w2 w) in F.
    + eexists _, _. split.
      * eapply H_success; eauto. apply answers_jsonResponse.
      * chain.
    + eexists _, _. split.
      * eapply H_enrichment_failed; eauto. apply answers_logged_error.
      * chain.
  - rewrite (exchangeCode_world _ _ _ _ w1 w) in E.
    eexists _, _. split.
    + eapply H_exchange_failed; eauto. apply answers_logged_error.
    + chain.
Qed.

(** Every run of [handleTokenExchange] follows one of the paths. *)
Lemma handle_paths P request env origin w :
  exists calls lines,
    Handled P request env w (fst (handleTokenExchange P request env origin w)) calls lines
    /\ extends w (snd (handleTokenExchange P request env origin w)) calls lines.
Proof.
  unfold handleTokenExchange.
  destruct (body_json P (body request)) as [[|req]|] eqn:Hbody.
  { exists [], []. split; [|apply extends_refl]. now apply H_null_body. }
  2:{ rewrite returned_fst, returned_snd.
      exists [], []. split; [|apply jsonResponse_extends].
      apply H_bad_body; [exact Hbody|apply answers_jsonResponse]. }
  apply request_json_Some in Hbody as Hreq.
  rewrite returned_fst, returned_snd.
  destruct (Js.truthy (code req)) eqn:Hcode; cbn [negb].
  2:{ exists [], []. split; [|apply jsonResponse_extends].
      eapply H_no_code; eauto. apply answers_jsonResponse. }
  destruct (Js.truthy (redirect_uri req)) eqn:Hredirect; cbn [negb].
  2:{ exists [], []. split; [|apply jsonResponse_extends].
      eapply H_no_redirect_uri; eauto. apply answers_jsonResponse. }
  destruct (isTruthy (provider_json req)) eqn:Hprovider; cbn [negb].
  2:{ exists [], []. split; [|apply jsonResponse_extends].
      eapply H_no_provider; eauto. apply answers_jsonResponse. }
  rewrite bind_eq.
  pose proof (withCache_extends
                (validateRedirectUri (default EmptyString (redirect_uri req))
                   (ALLOWED_REDIRECT_URIS env)) w) as Hw1.
  rewrite withCache_fst.
  destruct (fst (validateRedirectUri _ (ALLOWED_REDIRECT_URIS env) (regexCache w)))
    eqn:Hvalid; cbn [negb].
  2:{ eexists _, _. split.
      - eapply H_invalid_redirect; eauto. apply answers_logged_error.
      - chain. }
  destruct (provider_json req) as [[name|[|]]|] eqn:Hjson; try discriminate Hprovider;
    cbn [toLowerCaseOf].
  2:{ rewrite exchanged_thrown. eexists _, _. split.
      - eapply H_provider_not_string; eauto. apply answers_logged_error.
      - chain. }
  assert (Hacc : accepted P request env w req).
  { unfold accepted, provider. rewrite Hjson. repeat split; assumption. }
  assert (Hof : Js.toLowerCase name = providerOf req)
    by (unfold providerOf, provider; now rewrite Hjson).
  rewrite Hof.
  destruct (String.eqb_spec (providerOf req) "google") as [Hg|Hg].
  { apply exchanged_paths; [exact Hacc|left; split; [exact Hg|reflexivity]|exact Hw1]. }
  destruct (String.eqb_spec (providerOf req) "outlook") as [Ho|Ho]; cbn [orb].
  { apply exchanged_paths; [exact Hacc|right; split; [now left|reflexivity]|exact Hw1]. }
  destruct (String.eqb_spec (providerOf req) "microsoft") as [Hm|Hm].
  { apply exchanged_paths; [exact Hacc|right; split; [now right|reflexivity]|exact Hw1]. }
  exists [], []. split.
  - eapply H_unsupported; eauto. apply answers_jsonResponse.
  - chain.
Qed.

(** ** The orchestrator, path by path *)


Lemma exchangeCode_Ok_calls P req env config w tokenResp :
  fst (exchangeCode P req env config w) = Ok tokenResp ->
  Js.truthy (envGet env (clientIdKey config)) = true
  /\ Js.truthy (envGet env (clientSecretKey config)) = true
  /\ exchangeCalls req env config
     = [tokenRequest req config
          (default EmptyString (envGet env (clientIdKey config)))
          (default EmptyString (envGet env (clientSecretKey config)))].
Proof.
  rewrite exchangeCode_fst. unfold exchangeCalls.
  destruct (Js.truthy (envGet env (clientIdKey config))); cbn [negb]; [|discriminate].
  destruct (Js.truthy (envGet env (clientSecretKey config))); cbn [negb]; [|discriminate].
  intros _. repeat split.
Qed.

(** The call of an exchange is a POST of the form fields to the endpoint of
    the configuration. *)
Lemma tokenRequest_post req config clientId clientSecret :
  tokenRequest req config clientId clientSecret
  = exchangePost (tokenEndpoint config) req clientId clientSecret.
Proof.
  unfold tokenRequest, exchangePost, exchangeFields.
  destruct (code_verifier req) as [[|c v]|]; reflexivity.
Qed.

(** The call of a profile lookup is a GET without a body. *)
Lemma userInfoRequest_get idToken env request :
  userInfoRequest idToken env (referralCodeOf request) = profileGet env request idToken.
Proof.
  unfold userInfoRequest, profileGet, referralCodeOf.
  destruct (header_referral_code request) as [[|c r]|]; reflexivity.
Qed.


(** The credentials an exchange was called with, when it made a call. *)
Lemma exchangeCalls_credentials req env config call :
  In call (exchangeCalls req env config) ->
  exists clientId clientSecret,
    envGet env (clientIdKey config) = Some clientId
    /\ envGet env (clientSecretKey config) = Some clientSecret
    /\ call = exchangePost (tokenEndpoint config) req clientId clientSecret.
Proof.
  unfold exchangeCalls.
  destruct (envGet env (clientIdKey config)) as [clientId|]; [|intros []].
  destruct (envGet env (clientSecretKey config)) as [clientSecret|];
    [|rewrite andb_false_r; intros []].
  destruct (_ && _); [|intros []]. intros [<-|[]].
  exists clientId, clientSecret. repeat split. apply tokenRequest_post.
Qed.






(** X9.  Field checks come first, in the order code, redirect_uri, provider: a
    request whose body does not parse, or parses to a value other than
    [null] that fails one of them, is answered 400 with the message of the
    first failing check, and neither calls out nor logs. *)
Theorem missing_field_rejected P request env origin w message :
  firstProblem P request = Some message ->
  answers (fst (handleTokenExchange P request env origin w)) 400 (DError message)
  /\ extends w (snd (handleTokenExchange P request env origin w)) [] [].
Proof.
  unfold firstProblem, handleTokenExchange.
  destruct (body_json P (body request)) as [[|req]|]; [discriminate| |];
    rewrite returned_fst, returned_snd.
  - destruct (negb (Js.truthy (code req))).
    { intros [= <-]. split; [apply answers_jsonResponse|apply jsonResponse_extends]. }
    destruct (negb (Js.truthy (redirect_uri req))).
    { intros [= <-]. split; [apply answers_jsonResponse|apply jsonResponse_extends]. }
    destruct (negb (isTruthy (provider_json req))); [|discriminate].
    intros [= <-]. split; [apply answers_jsonResponse|apply jsonResponse_extends].
  - intros [= <-]. split; [apply answers_jsonResponse|apply jsonResponse_extends].
Qed.

Lemma missing_field_rejected_witness :
  let req := {| code := None; redirect_uri := Some "https://app.example.com/";
                code_verifier := None; provider_json := Some (IsString "google") |} in
  let P := samplePlatform req 200 in
  answers (fst (handleTokenExchange P sampleRequest sampleEnv None freshWorld)) 400
    (DError "code is required")
  /\ extends freshWorld (snd (handleTokenExchange P sampleRequest sampleEnv None freshWorld))
       [] [].
Proof.
  cbv zeta.
  apply (missing_field_rejected
           (samplePlatform {| code := None; redirect_uri := Some "https://app.example.com/";
                              code_verifier := None;
                              provider_json := Some (IsString "google") |} 200)
           sampleRequest sampleEnv None freshWorld "code is required").
  reflexivity.
Defined.



(** The response of a path, once the outcome is known to be one. *)
Ltac answered :=
  repeat match goal with
         | H : answers (Ok _) _ _ |- _ =>
             let r := fresh "r" in
             let Hr := fresh "Hr" in
             destruct H as (r & Hr & ? & ?); injection Hr as <-
         | H : Ok _ = Throw _ |- _ => discriminate H
         end.

(** X11.  A 200 answer comes with exactly two outbound calls, the exchange with
    the selected provider and then the profile lookup with the [id_token] of
    the answer, and with no console output. *)
Theorem success_trace P request env origin w resp :
  fst (handleTokenExchange P request env origin w) = Ok resp ->
  status resp = 200%N ->
  exists req config tokens,
    accepted P request env w req
    /\ dispatched req config
    /\ payload resp = Some (DToken tokens)
    /\ extends w (snd (handleTokenExchange P request env origin w))
         [tokenRequest req config
            (default EmptyString (envGet env (clientIdKey config)))
            (default EmptyString (envGet env (clientSecretKey config)));
          userInfoRequest (default EmptyString (id_token tokens)) env
            (referralCodeOf request)]
         [].
Proof.
  intros Hresp Hst.
  destruct (handle_paths P request env origin w) as (calls & lines & Hpath & Hext).
  rewrite Hresp in Hpath.
  destruct Hpath as [| | | | | | | | |
                     |req config tokenResp userInfo Hacc Hdisp E F Hans];
    answered; try congruence.
  exists req, config, (set_user_info tokenResp userInfo).
  destruct (exchangeCode_Ok_calls _ _ _ _ _ _ E) as (_ & _ & Hcalls).
  rewrite Hcalls in Hext.
  split; [exact Hacc|]. split; [exact Hdisp|]. split; [assumption|]. exact Hext.
Qed.

Lemma success_trace_witness :
  let req := sampleExchange "https://app.example.com/callback" "google" in
  let P := samplePlatform req 200 in
  exists req' config tokens,
    accepted P sampleRequest sampleEnv freshWorld req'
    /\ dispatched req' config
    /\ Some (DToken (set_user_info sampleTokens
                       (JObject [("email", JString "user@example.com")])))
       = Some (DToken tokens)
    /\ extends freshWorld (snd (handleTokenExchange P sampleRequest sampleEnv None freshWorld))
         [tokenRequest req' config
            (default EmptyString (envGet sampleEnv (clientIdKey config)))
            (default EmptyString (envGet sampleEnv (clientSecretKey config)));
          userInfoRequest (default EmptyString (id_token tokens)) sampleEnv
            (referralCodeOf sampleRequest)]
         [].
Proof.
  cbv zeta.
  apply (success_trace
           (samplePlatform (sampleExchange "https://app.example.com/callback" "google") 200)
           sampleRequest sampleEnv None freshWorld
           {| status := 200;
              headers := [("Content-Type", "application/json")];
              payload := Some (DToken (set_user_info sampleTokens
                                 (JObject [("email", JString "user@example.com")]))) |}).
  - vm_compute. reflexivity.
  - reflexivity.
Defined.

Lemma dispatched_config req config :
  dispatched req config -> config = googleConfig \/ config = microsoftConfig.
Proof. intros [[_ ->]|[_ ->]]; [now left|now right]. Qed.

Lemma exchangeCalls_once req env config :
  dispatched req config ->
  exchangeCalls req env config = []
  \/ exists exchange, exchangeCalls req env config = [exchange] /\ exchangeCall exchange.
Proof.
  intros Hc. unfold exchangeCalls. destruct (_ && _); [right|now left].
  eexists. split; [reflexivity|]. split; [|reflexivity].
  apply dispatched_config in Hc as [-> | ->]; [now left|now right].
Qed.

Lemma userInfoRequest_profile idToken env referralCode :
  profileCall env (userInfoRequest idToken env referralCode).
Proof. split; reflexivity. Qed.

Lemma onceEach_known env calls :
  onceEach env calls -> length calls <= 2 /\ Forall (knownEndpoint env) calls.
Proof.
  assert (Hex : forall call, exchangeCall call -> knownEndpoint env call).
  { intros call [[H|H] Hm]; [left|right; left]; now split. }
  intros [->|[(exchange & -> & H)|(exchange & lookup & -> & H1 & H2)]]; cbn [length].
  - split; [lia|constructor].
  - split; [lia|]. constructor; [now apply Hex|constructor].
  - split; [lia|]. constructor; [now apply Hex|].
    constructor; [right; right; exact H2|constructor].
Qed.

(** The calls of a path: none, the exchange, or the exchange and then the
    lookup. *)
Lemma Handled_onceEach P request env w outcome calls lines :
  Handled P request env w outcome calls lines ->
  onceEach env calls /\ length lines <= 1.
Proof.
  intros Hpath.
  destruct Hpath as [| | | | | | |
                     |req config message Hacc Hdisp E Hans
                     |req config tokenResp message Hacc Hdisp E F Hans
                     |req config tokenResp userInfo Hacc Hdisp E F Hans];
    cbn [length]; try (split; [now left|lia]); (split; [|lia]).
  - destruct (exchangeCalls_once req env config Hdisp) as [->|(exchange & -> & H)];
      [now left|right; left; eauto].
  - destruct (exchangeCode_Ok_calls _ _ _ _ _ _ E) as (_ & _ & Hcalls).
    destruct (exchangeCalls_once req env config Hdisp) as [H|(exchange & H & Hcall)];
      [rewrite Hcalls in H; discriminate H|].
    rewrite H. right. right. eexists _, _. split; [reflexivity|].
    split; [exact Hcall|apply userInfoRequest_profile].
  - destruct (exchangeCode_Ok_calls _ _ _ _ _ _ E) as (_ & _ & Hcalls).
    destruct (exchangeCalls_once req env config Hdisp) as [H|(exchange & H & Hcall)];
      [rewrite Hcalls in H; discriminate H|].
    rewrite H. right. right. eexists _, _. split; [reflexivity|].
    split; [exact Hcall|apply userInfoRequest_profile].
Qed.

(** X12.  Nothing is retried: one request makes no outbound call, one POST to
    a token endpoint, or one POST to a token endpoint followed by one GET to
    the profile endpoint of the backend, so at most two calls and never two
    of a kind; and it writes at most one line to the console. *)
Theorem outbound_bounded P request env origin w :
  exists calls lines,
    extends w (snd (handleTokenExchange P request env origin w)) calls lines
    /\ onceEach env calls
    /\ length calls <= 2
    /\ Forall (knownEndpoint env) calls
    /\ length lines <= 1.
Proof.
  destruct (handle_paths P request env origin w) as (calls & lines & Hpath & Hext).
  exists calls, lines. split; [exact Hext|].
  destruct (Handled_onceEach _ _ _ _ _ _ _ Hpath) as [Honce Hlines].
  destruct (onceEach_known env calls Honce) as [Hlen Hknown].
  split; [exact Honce|]. split; [exact Hlen|]. split; [exact Hknown|exact Hlines].
Qed.

(** X13.  No call leaves the worker before the request is accepted: an outbound
    call implies that the body parsed, the three fields were present, the
    redirect URI passed the allowlist, the provider was a supported one and
    its two credentials were configured; the first call is then the exchange
    with that provider. *)
Theorem outbound_implies_accepted P request env origin w :
  outbound (snd (handleTokenExchange P request env origin w)) <> outbound w ->
  exists req config rest,
    accepted P request env w req
    /\ dispatched req config
    /\ Js.truthy (envGet env (clientIdKey config)) = true
    /\ Js.truthy (envGet env (clientSecretKey config)) = true
    /\ outbound (snd (handleTokenExchange P request env origin w))
       = (outbound w
            ++ tokenRequest req config
                 (default EmptyString (envGet env (clientIdKey config)))
                 (default EmptyString (envGet env (clientSecretKey config)))
            :: rest)%list.
Proof.
  intros Hne.
  destruct (handle_paths P request env origin w) as (calls & lines & Hpath & [Hout _]).
  destruct Hpath as [| | | | | | |
                     |req config message Hacc Hdisp E Hans
                     |req config tokenResp message Hacc Hdisp E F Hans
                     |req config tokenResp userInfo Hacc Hdisp E F Hans];
    try (exfalso; apply Hne; rewrite Hout; apply app_nil_r).
  - exists req, config, []. unfold exchangeCalls in Hout.
    destruct (Js.truthy (envGet env (clientIdKey config)));
      [|exfalso; apply Hne; rewrite Hout; apply app_nil_r].
    destruct (Js.truthy (envGet env (clientSecretKey config)));
      [|exfalso; apply Hne; rewrite Hout; apply app_nil_r].
    cbn [andb] in Hout.
    split; [assumption|]. split; [assumption|].
    split; [reflexivity|]. split; [reflexivity|]. exact Hout.
  - destruct (exchangeCode_Ok_calls _ _ _ _ _ _ E) as (Hid & Hsec & Hcalls).
    rewrite Hcalls in Hout. eexists req, config, _.
    split; [eassumption|]. split; [eassumption|].
    split; [exact Hid|]. split; [exact Hsec|]. exact Hout.
  - destruct (exchangeCode_Ok_calls _ _ _ _ _ _ E) as (Hid & Hsec & Hcalls).
    rewrite Hcalls in Hout. eexists req, config, _.
    split; [eassumption|]. split; [eassumption|].
    split; [exact Hid|]. split; [exact Hsec|]. exact Hout.
Qed.

Lemma outbound_implies_accepted_witness :
  let req := sampleExchange "https://app.example.com/callback" "microsoft" in
  let P := samplePlatform req 200 in
  exists req' config rest,
    accepted P sampleRequest sampleEnv freshWorld req'
    /\ dispatched req' config
    /\ Js.truthy (envGet sampleEnv (clientIdKey config)) = true
    /\ Js.truthy (envGet sampleEnv (clientSecretKey config)) = true
    /\ outbound (snd (handleTokenExchange P sampleRequest sampleEnv None freshWorld))
       = (outbound freshWorld
            ++ tokenRequest req' config
                 (default EmptyString (envGet sampleEnv (clientIdKey config)))
                 (default EmptyString (envGet sampleEnv (clientSecretKey config)))
            :: rest)%list.
Proof.
  cbv zeta.
  apply (outbound_implies_accepted
           (samplePlatform (sampleExchange "https://app.example.com/callback" "microsoft") 200)
           sampleRequest sampleEnv None freshWorld).
  vm_compute. discriminate.
Defined.

Lemma dispatched_credentials req env config clientId clientSecret :
  dispatched req config ->
  envGet env (clientIdKey config) = Some clientId ->
  envGet env (clientSecretKey config) = Some clientSecret ->
  (config = googleConfig
   /\ GOOGLE_OAUTH_CLIENT_ID env = Some clientId
   /\ GOOGLE_OAUTH_CLIENT_SECRET env = Some clientSecret)
  \/ (config = microsoftConfig
      /\ MICROSOFT_OAUTH_CLIENT_ID env = Some clientId
      /\ MICROSOFT_OAUTH_CLIENT_SECRET env = Some clientSecret).
Proof.
  intros Hdisp Hid Hsec.
  apply dispatched_config in Hdisp as [-> | ->]; [left|right]; repeat split; assumption.
Qed.

(** X14.  What leaves the worker is fixed field by field.  Of the calls one
    request makes, one is the exchange: the POST of the form to the token
    endpoint of the selected provider, made with the client id and the
    client secret of that provider and of no other.  The other is the
    profile lookup: a GET without a body to [USER_INFO_SERVICE_URL] +
    [/user/info] whose headers are [x-auth-token], holding the [id_token]
    the provider returned, and [x-referral-code] when the request had one.
    Nothing else of the environment enters the lookup. *)
Theorem secret_goes_to_its_provider P request env origin w call :
  In call (skipn (length (outbound w))
             (outbound (snd (handleTokenExchange P request env origin w)))) ->
  (exists req config clientId clientSecret,
     accepted P request env w req
     /\ dispatched req config
     /\ ((config = googleConfig
          /\ GOOGLE_OAUTH_CLIENT_ID env = Some clientId
          /\ GOOGLE_OAUTH_CLIENT_SECRET env = Some clientSecret)
         \/ (config = microsoftConfig
             /\ MICROSOFT_OAUTH_CLIENT_ID env = Some clientId
             /\ MICROSOFT_OAUTH_CLIENT_SECRET env = Some clientSecret))
     /\ call = exchangePost (tokenEndpoint config) req clientId clientSecret)
  \/ (exists req config tokens,
        accepted P request env w req
        /\ dispatched req config
        /\ fst (exchangeCode P req env config w) = Ok tokens
        /\ call = profileGet env request (default EmptyString (id_token tokens))).
Proof.
  intros Hin.
  destruct (handle_paths P request env origin w) as (calls & lines & Hpath & [Hout _]).
  rewrite Hout, skipn_app, skipn_all, Nat.sub_diag in Hin. cbn [skipn app] in Hin.
  assert (Hex : forall req config,
             accepted P request env w req ->
             dispatched req config ->
             In call (exchangeCalls req env config) ->
             exists req config clientId clientSecret,
               accepted P request env w req
               /\ dispatched req config
               /\ ((config = googleConfig
                    /\ GOOGLE_OAUTH_CLIENT_ID env = Some clientId
                    /\ GOOGLE_OAUTH_CLIENT_SECRET env = Some clientSecret)
                   \/ (config = microsoftConfig
                       /\ MICROSOFT_OAUTH_CLIENT_ID env = Some clientId
                       /\ MICROSOFT_OAUTH_CLIENT_SECRET env = Some clientSecret))
               /\ call = exchangePost (tokenEndpoint config) req clientId clientSecret).
  { intros req config Hacc Hdisp Hcall.
    destruct (exchangeCalls_credentials _ _ _ _ Hcall)
      as (clientId & clientSecret & Hid & Hsec & ->).
    exists req, config, clientId, clientSecret.
    split; [exact Hacc|]. split; [exact Hdisp|].
    split; [now apply (dispatched_credentials req)|reflexivity]. }
  destruct Hpath as [| | | | | | |
                     |req config message Hacc Hdisp E Hans
                     |req config tokenResp message Hacc Hdisp E F Hans
                     |req config tokenResp userInfo Hacc Hdisp E F Hans];
    try (destruct Hin; fail).
  - left. eapply Hex; eassumption.
  - apply in_app_or in Hin as [Hin|[<-|[]]]; [left; eapply Hex; eassumption|].
    right. exists req, config, tokenResp.
    split; [exact Hacc|]. split; [exact Hdisp|]. split; [exact E|].
    apply userInfoRequest_get.
  - apply in_app_or in Hin as [Hin|[<-|[]]]; [left; eapply Hex; eassumption|].
    right. exists req, config, tokenResp.
    split; [exact Hacc|]. split; [exact Hdisp|]. split; [exact E|].
    apply userInfoRequest_get.
Qed.

(** ** The validators, entry by entry *)

Lemma firstMatch_spec test (f : string -> bool) patterns :
  (forall pattern (c : Cache), cacheOk c ->
     fst (test pattern c) = f pattern /\ cacheOk (snd (test pattern c))) ->
  forall c : Cache, cacheOk c -> fst (firstMatch test patterns c) = existsb f patterns.
Proof.
  intros Htest. induction patterns as [|pattern rest IH]; intros c Hc; [reflexivity|].
  cbn [firstMatch existsb]. destruct (Htest pattern c Hc) as [Hf Hc'].
  destruct (test pattern c) as [ok c']. cbn [fst snd] in Hf, Hc'. rewrite <- Hf.
  destruct ok; [reflexivity|]. cbn [orb]. now apply IH.
Qed.

Lemma isAllowedOrigin_spec URL origin allowedUris (c : Cache) :
  cacheOk c ->
  fst (isAllowedOrigin URL origin allowedUris c)
  = negb (Js.isEmpty origin) && originMatches URL allowedUris origin.
Proof.
  intros Hc. unfold isAllowedOrigin, originMatches, allowlist.
  destruct (Js.isEmpty origin); [reflexivity|]. cbn [negb andb].
  apply firstMatch_spec; [|exact Hc].
  intros pattern c' Hc'. unfold Js.truthy.
  destruct (extractOrigin URL pattern) as [o|]; [|split; [reflexivity|exact Hc']].
  destruct (Js.isEmpty o); cbn [negb andb default]; [split; [reflexivity|exact Hc']|].
  split; [now apply matchesPattern_wildcard|now apply matchesPattern_cacheOk].
Qed.

(** X1.  On a cache that satisfies its invariant, [matchesPattern] decides
    wildcard matching in which every character of the pattern but [*] stands
    for itself; compilation never fails, so the pattern is cached after the
    call. *)
Theorem matchesPattern_decides uri pattern (regexCache : Cache) :
  cacheOk regexCache ->
  fst (matchesPattern uri pattern regexCache) = matches pattern uri
  /\ is_Some (snd (matchesPattern uri pattern regexCache) !! pattern)
  /\ cacheOk (snd (matchesPattern uri pattern regexCache)).
Proof.
  intros Hok. split; [now apply matchesPattern_wildcard|].
  split; [|now apply matchesPattern_cacheOk].
  destruct (regexCache !! pattern) as [regex|] eqn:Hget.
  - rewrite (matchesPattern_hit _ _ _ _ Hget). cbn [snd]. rewrite Hget. eauto.
  - rewrite (matchesPattern_miss _ _ _ Hget). cbn [snd]. rewrite lookup_insert_eq. eauto.
Qed.

Lemma matchesPattern_decides_witness :
  fst (matchesPattern "https://a.example.com/cb" "https://*.example.com/cb" ∅)
    = matches "https://*.example.com/cb" "https://a.example.com/cb"
  /\ is_Some (snd (matchesPattern "https://a.example.com/cb" "https://*.example.com/cb" ∅)
                !! "https://*.example.com/cb")
  /\ cacheOk (snd (matchesPattern "https://a.example.com/cb" "https://*.example.com/cb" ∅)).
Proof.
  apply (matchesPattern_decides "https://a.example.com/cb" "https://*.example.com/cb" ∅).
  apply cacheOk_empty.
Defined.

(** X5.  [validateRedirectUri] accepts exactly the non-empty URIs that some
    trimmed entry of the comma-separated allowlist matches. *)
Theorem validateRedirectUri_accepts redirectUri allowedUris (regexCache : Cache) :
  cacheOk regexCache ->
  (fst (validateRedirectUri redirectUri allowedUris regexCache) = true
   <-> redirectUri <> EmptyString
       /\ exists pattern,
            In pattern (allowlist allowedUris) /\ matches pattern redirectUri = true).
Proof.
  intros Hok. rewrite validateRedirectUri_spec by exact Hok.
  rewrite andb_true_iff, negb_true_iff, existsb_exists.
  destruct redirectUri; cbn [Js.isEmpty]; split; intros [H1 H2];
    (split; [congruence|exact H2]).
Qed.

Lemma validateRedirectUri_accepts_witness :
  fst (validateRedirectUri "https://app.example.com/cb"
         "https://other.example.org/ , https://app.example.com/*" ∅) = true
  <-> "https://app.example.com/cb" <> EmptyString
      /\ exists pattern,
           In pattern (allowlist "https://other.example.org/ , https://app.example.com/*")
           /\ matches pattern "https://app.example.com/cb" = true.
Proof.
  apply (validateRedirectUri_accepts "https://app.example.com/cb"
           "https://other.example.org/ , https://app.example.com/*" ∅).
  apply cacheOk_empty.
Defined.

Lemma split_nonempty sep s : Js.split sep s <> [].
Proof.
  destruct s as [|c s]; cbn [Js.split]; [discriminate|].
  destruct (Ascii.eqb c sep); [discriminate|].
  destruct (Js.split sep s); discriminate.
Qed.

Lemma split_app sep a b :
  Js.split sep (a ++ String sep b) = (Js.split sep a ++ Js.split sep b)%list.
Proof.
  induction a as [|c a IH].
  - change (EmptyString ++ String sep b) with (String sep b).
    cbn [Js.split]. now rewrite Ascii.eqb_refl.
  - change (String c a ++ String sep b) with (String c (a ++ String sep b)).
    cbn [Js.split]. rewrite IH.
    destruct (Ascii.eqb c sep); [reflexivity|].
    pose proof (split_nonempty sep a) as Hne.
    destruct (Js.split sep a) as [|x xs]; [congruence|reflexivity].
Qed.

(** X6.  Joining two allowlists with a comma accepts what either accepts: an
    added entry never turns an accepted redirect URI into a refused one. *)
Theorem validateRedirectUri_union redirectUri allowed1 allowed2 (c c1 c2 : Cache) :
  cacheOk c -> cacheOk c1 -> cacheOk c2 ->
  fst (validateRedirectUri redirectUri (allowed1 ++ String "," allowed2) c)
  = fst (validateRedirectUri redirectUri allowed1 c1)
    || fst (validateRedirectUri redirectUri allowed2 c2).
Proof.
  intros H H1 H2. rewrite !validateRedirectUri_spec by assumption.
  rewrite split_app, map_app, existsb_app.
  destruct (Js.isEmpty redirectUri); reflexivity.
Qed.

Lemma validateRedirectUri_union_witness :
  fst (validateRedirectUri "https://b.example.com/"
         ("https://a.example.com/*" ++ String "," "https://b.example.com/*") ∅)
  = fst (validateRedirectUri "https://b.example.com/" "https://a.example.com/*" ∅)
    || fst (validateRedirectUri "https://b.example.com/" "https://b.example.com/*" ∅).
Proof.
  apply (validateRedirectUri_union "https://b.example.com/"
           "https://a.example.com/*" "https://b.example.com/*" ∅ ∅ ∅);
    apply cacheOk_empty.
Defined.

(** X7.  An allowlist whose entries are all blank, the empty string among them,
    accepts no redirect URI. *)
Theorem blank_allowlist_rejects redirectUri allowedUris (regexCache : Cache) :
  cacheOk regexCache ->
  Forall (fun pattern => pattern = EmptyString) (allowlist allowedUris) ->
  fst (validateRedirectUri redirectUri allowedUris regexCache) = false.
Proof.
  intros Hok Hblank. rewrite validateRedirectUri_spec by exact Hok.
  destruct redirectUri as [|c u]; [reflexivity|]. cbn [Js.isEmpty negb andb].
  fold (allowlist allowedUris).
  induction Hblank as [|pattern rest Hp _ IH]; [reflexivity|].
  cbn [existsb]. rewrite IH, Hp. reflexivity.
Qed.

Lemma blank_allowlist_rejects_witness :
  fst (validateRedirectUri "https://app.example.com/" " , ,  " ∅) = false.
Proof.
  apply (blank_allowlist_rejects "https://app.example.com/" " , ,  " ∅).
  - apply cacheOk_empty.
  - repeat constructor.
Defined.

(** X8.  [isAllowedOrigin] accepts exactly the non-empty origins matched by the
    origin some entry reduces to; an entry the URL parser refuses is passed
    over. *)
Theorem isAllowedOrigin_accepts URL origin allowedUris (regexCache : Cache) :
  cacheOk regexCache ->
  (fst (isAllowedOrigin URL origin allowedUris regexCache) = true
   <-> origin <> EmptyString
       /\ exists pattern patternOrigin,
            In pattern (allowlist allowedUris)
            /\ extractOrigin URL pattern = Some patternOrigin
            /\ patternOrigin <> EmptyString
            /\ matches patternOrigin origin = true).
Proof.
  intros Hok. rewrite isAllowedOrigin_spec by exact Hok.
  rewrite andb_true_iff, negb_true_iff. unfold originMatches. rewrite existsb_exists.
  split.
  - intros [Ho (pattern & Hin & Hm)]. split; [destruct origin; [discriminate|congruence]|].
    destruct (extractOrigin URL pattern) as [o|] eqn:E; [|discriminate].
    apply andb_true_iff in Hm as [Hne Hm]. exists pattern, o.
    repeat split; try assumption. intros ->. discriminate.
  - intros [Ho (pattern & o & Hin & E & Hne & Hm)].
    split; [destruct origin; [congruence|reflexivity]|].
    exists pattern. split; [exact Hin|]. rewrite E, Hm.
    destruct o; [congruence|reflexivity].
Qed.

Lemma isAllowedOrigin_accepts_witness :
  fst (isAllowedOrigin Url.parse "https://app.example.com"
         "not a url, https://app.example.com/callback" ∅) = true
  <-> "https://app.example.com" <> EmptyString
      /\ exists pattern patternOrigin,
           In pattern (allowlist "not a url, https://app.example.com/callback")
           /\ extractOrigin Url.parse pattern = Some patternOrigin
           /\ patternOrigin <> EmptyString
           /\ matches patternOrigin "https://app.example.com" = true.
Proof.
  apply (isAllowedOrigin_accepts Url.parse "https://app.example.com"
           "not a url, https://app.example.com/callback" ∅).
  apply cacheOk_empty.
Defined.

(** ** Responses and their headers *)

Lemma producing_jsonResponse P env origin data st :
  producing P env origin (jsonResponse P data st origin (ALLOWED_REDIRECT_URIS env)).
Proof. intros w. exists data, st, w. split; [reflexivity|trivial]. Qed.

Lemma producing_bind {A} P env origin (m : St A) (k : A -> St Response) :
  preserves m -> (forall a, producing P env origin (k a)) ->
  producing P env origin (bind m k).
Proof.
  intros Hm Hk w. rewrite bind_eq.
  destruct (Hk (fst (m w)) (snd (m w))) as (data & st & w' & Heq & Hok).
  exists data, st, w'. split; [exact Heq|]. intros Hw. apply Hok, Hm, Hw.
Qed.

Lemma producing_logged_error P env origin line message st :
  producing P env origin
    (bind (console_error line)
       (fun _ => errorResponse P message st origin (ALLOWED_REDIRECT_URIS env))).
Proof.
  apply producing_bind; [apply preserves_console_error|].
  intros _. apply producing_jsonResponse.
Qed.

Lemma producing_exchanged P request env origin exchange :
  preserves exchange ->
  producing P env origin (exchanged P request env origin exchange).
Proof.
  intros Hexchange.
  unfold exchanged. apply producing_bind; [exact Hexchange|].
  intros [tokenResp|err]; [|apply producing_logged_error].
  unfold enrich.
  destruct (negb (Js.truthy (id_token tokenResp))); [apply producing_logged_error|].
  apply producing_bind; [apply preserves_fetchUserInfo|].
  intros [userInfo|err]; [apply producing_jsonResponse|apply producing_logged_error].
Qed.

Lemma answering_returned P env origin (m : St Response) :
  producing P env origin m -> answering P env origin (returned m).
Proof. intros Hm w resp. rewrite returned_fst. intros [= <-]. apply Hm. Qed.

Lemma answering_handleTokenExchange P request env origin :
  answering P env origin (handleTokenExchange P request env origin).
Proof.
  unfold handleTokenExchange.
  destruct (body_json P (body request)) as [[|req]|];
    [intros w resp H; discriminate H|
    |apply answering_returned, producing_jsonResponse].
  apply answering_returned.
  destruct (negb (Js.truthy (code req))); [apply producing_jsonResponse|].
  destruct (negb (Js.truthy (redirect_uri req))); [apply producing_jsonResponse|].
  destruct (negb (isTruthy (provider_json req))); [apply producing_jsonResponse|].
  apply producing_bind.
  - apply preserves_withCache. intros c Hc. now apply validateRedirectUri_cacheOk.
  - intros valid. destruct (negb valid); [apply producing_logged_error|].
    destruct (toLowerCaseOf (provider_json req)) as [provider|err];
      [|apply producing_exchanged, preserves_ret].
    destruct (String.eqb _ "google");
      [apply producing_exchanged, preserves_exchangeCode|].
    destruct (String.eqb _ "outlook" || String.eqb _ "microsoft");
      [apply producing_exchanged, preserves_exchangeCode|apply producing_jsonResponse].
Qed.

(** Every response to a method other than OPTIONS is built by
    [jsonResponse]. *)
Lemma worker_producing P request env w resp :
  method request <> "OPTIONS" ->
  fst (worker_fetch P request env w) = Ok resp ->
  produced P env (header_origin request) w resp.
Proof.
  intros Hopt. revert w resp.
  change (answering P env (header_origin request) (worker_fetch P request env)).
  unfold worker_fetch.
  destruct (String.eqb_spec (method request) "OPTIONS") as [E|_]; [contradiction|].
  destruct (String.eqb _ "/health"); [apply answering_returned, producing_jsonResponse|].
  destruct (String.eqb _ "/oauth/token" && String.eqb (method request) "POST");
    [apply answering_handleTokenExchange
    |apply answering_returned, producing_jsonResponse].
Qed.


(** The headers of a JSON response: the content type, followed by the CORS
    headers for the origin when the allowlist accepts it. *)
Lemma jsonResponse_headers P data st origin allowedUris w :
  cacheOk (regexCache w) ->
  headers (fst (jsonResponse P data st origin allowedUris w))
  = contentTypeJson
    :: (if Js.truthy origin && negb (Js.isEmpty allowedUris)
           && originMatches (URL P) allowedUris (default EmptyString origin)
        then corsHeaders (default EmptyString origin) else []).
Proof.
  intros Hok. unfold jsonResponse. rewrite bind_eq. unfold ret. cbn [fst headers].
  unfold originAllowed.
  destruct (Js.truthy origin) eqn:Ho; cbn [andb]; [|reflexivity].
  destruct (Js.isEmpty allowedUris); cbn [negb andb]; [reflexivity|].
  rewrite withCache_fst, isAllowedOrigin_spec by exact Hok.
  destruct origin as [[|c o]|]; try discriminate. cbn [default Js.isEmpty negb andb].
  destruct (originMatches _ _ _); reflexivity.
Qed.

Lemma handleCors_headers P origin allowedUris w :
  cacheOk (regexCache w) ->
  headers (fst (handleCors P origin allowedUris w))
  = if Js.truthy origin && originMatches (URL P) allowedUris (default EmptyString origin)
    then (corsHeaders (default EmptyString origin)
            ++ [("Access-Control-Max-Age", "86400")])%list
    else [].
Proof.
  intros Hok. unfold handleCors. rewrite bind_eq. unfold ret. cbn [fst headers].
  destruct (Js.truthy origin) eqn:Ho; cbn [andb]; [|reflexivity].
  rewrite withCache_fst, isAllowedOrigin_spec by exact Hok.
  destruct origin as [[|c o]|]; try discriminate. cbn [default Js.isEmpty negb andb].
  destruct (originMatches _ _ _); reflexivity.
Qed.

Lemma worker_options P request env w :
  method request = "OPTIONS" ->
  worker_fetch P request env w
  = returned (handleCors P (header_origin request) (ALLOWED_REDIRECT_URIS env)) w.
Proof. intros Hopt. unfold worker_fetch. rewrite Hopt. reflexivity. Qed.

(** X15.  Whatever the route and the outcome, a response names an allowed origin
    only if it is the [Origin] of the request, not empty, and matched by
    the origin of an allowlist entry; the header never holds another value. *)
Theorem cors_echoes_allowed_origin P request env w resp value :
  cacheOk (regexCache w) ->
  fst (worker_fetch P request env w) = Ok resp ->
  In ("Access-Control-Allow-Origin", value) (headers resp) ->
  header_origin request = Some value
  /\ value <> EmptyString
  /\ originMatches (URL P) (ALLOWED_REDIRECT_URIS env) value = true.
Proof.
  intros Hok Hresp Hin.
  assert (Hcors : forall o extra,
            Js.truthy (header_origin request) = true ->
            originMatches (URL P) (ALLOWED_REDIRECT_URIS env)
              (default EmptyString (header_origin request)) = true ->
            o = default EmptyString (header_origin request) ->
            In ("Access-Control-Allow-Origin", value) (corsHeaders o ++ extra) ->
            (forall v, ~ In ("Access-Control-Allow-Origin", v) extra) ->
            header_origin request = Some value
            /\ value <> EmptyString
            /\ originMatches (URL P) (ALLOWED_REDIRECT_URIS env) value = true).
  { intros o extra Ht Hm -> Hv Hextra.
    destruct (header_origin request) as [[|c o]|]; try discriminate.
    cbn [default] in *. apply in_app_or in Hv as [Hv|Hv]; [|now apply Hextra in Hv].
    cbn in Hv. destruct Hv as [Hv|[Hv|[Hv|[]]]]; try discriminate.
    injection Hv as <-. repeat split; [discriminate|exact Hm]. }
  destruct (String.eqb_spec (method request) "OPTIONS") as [Hopt|Hopt].
  - rewrite (worker_options P request env w Hopt), returned_fst in Hresp.
    injection Hresp as <-.
    rewrite handleCors_headers in Hin by exact Hok.
    destruct (Js.truthy (header_origin request)) eqn:Ht; cbn [andb] in Hin; [|destruct Hin].
    destruct (originMatches _ _ _) eqn:Hm; [|destruct Hin].
    apply (Hcors _ _ eq_refl eq_refl eq_refl Hin).
    intros v [Hv|[]]. discriminate.
  - destruct (worker_producing P request env w resp Hopt Hresp)
      as (data & st & w' & Heq & Hok').
    rewrite Heq, jsonResponse_headers in Hin by (apply Hok', Hok).
    destruct Hin as [Hin|Hin]; [discriminate|].
    destruct (Js.truthy (header_origin request)) eqn:Ht; cbn [andb] in Hin; [|destruct Hin].
    destruct (negb _); cbn [andb] in Hin; [|destruct Hin].
    destruct (originMatches _ _ _) eqn:Hm; [|destruct Hin].
    apply (Hcors _ [] eq_refl eq_refl eq_refl); [now rewrite app_nil_r|]. intros v [].
Qed.

Lemma cors_echoes_allowed_origin_witness :
  header_origin sampleRequest = Some "https://app.example.com"
  /\ "https://app.example.com" <> EmptyString
  /\ originMatches Url.parse (ALLOWED_REDIRECT_URIS sampleEnv) "https://app.example.com" = true.
Proof.
  apply (cors_echoes_allowed_origin
           (samplePlatform (sampleExchange "https://app.example.com/callback" "google") 200)
           sampleRequest sampleEnv freshWorld
           {| status := 200;
              headers := contentTypeJson :: corsHeaders "https://app.example.com";
              payload := Some (DToken (set_user_info sampleTokens
                                 (JObject [("email", JString "user@example.com")]))) |}
           "https://app.example.com").
  - apply cacheOk_empty.
  - vm_compute. reflexivity.
  - right. left. reflexivity.
Defined.



(** X17.  A preflight is answered before any route is looked at: 204 without a
    body, without an outbound call or a console line; its headers are the
    four CORS headers for an accepted origin, and none otherwise. *)
Theorem preflight P request env w :
  method request = "OPTIONS" ->
  cacheOk (regexCache w) ->
  exists resp,
    fst (worker_fetch P request env w) = Ok resp
    /\ status resp = 204%N
    /\ payload resp = None
    /\ extends w (snd (worker_fetch P request env w)) [] []
    /\ headers resp
       = if Js.truthy (header_origin request)
            && originMatches (URL P) (ALLOWED_REDIRECT_URIS env)
                 (default EmptyString (header_origin request))
         then (corsHeaders (default EmptyString (header_origin request))
                 ++ [("Access-Control-Max-Age", "86400")])%list
         else [].
Proof.
  intros Hopt Hok. rewrite (worker_options P request env w Hopt).
  rewrite returned_fst, returned_snd.
  eexists. split; [reflexivity|]. split; [|split; [|split]].
  - unfold handleCors. now rewrite bind_eq.
  - unfold handleCors. now rewrite bind_eq.
  - unfold handleCors. rewrite bind_eq. unfold ret. cbn [snd].
    destruct (Js.truthy (header_origin request));
      [apply withCache_extends|apply extends_refl].
  - now apply handleCors_headers.
Qed.

Lemma preflight_witness :
  let P := samplePlatform (sampleExchange "https://app.example.com/callback" "google") 200 in
  let request := {| method := "OPTIONS"; url_pathname := "/api/oauth/token";
                    header_origin := Some "https://evil.example";
                    header_referral_code := None; body := EmptyString |} in
  exists resp,
    fst (worker_fetch P request sampleEnv freshWorld) = Ok resp
    /\ status resp = 204%N
    /\ payload resp = None
    /\ extends freshWorld (snd (worker_fetch P request sampleEnv freshWorld)) [] []
    /\ headers resp
       = if Js.truthy (header_origin request)
            && originMatches (URL P) (ALLOWED_REDIRECT_URIS sampleEnv)
                 (default EmptyString (header_origin request))
         then (corsHeaders (default EmptyString (header_origin request))
                 ++ [("Access-Control-Max-Age", "86400")])%list
         else [].
Proof.
  cbv zeta.
  apply (preflight
           (samplePlatform (sampleExchange "https://app.example.com/callback" "google") 200)
           {| method := "OPTIONS"; url_pathname := "/api/oauth/token";
              header_origin := Some "https://evil.example";
              header_referral_code := None; body := EmptyString |}
           sampleEnv freshWorld).
  - reflexivity.
  - apply cacheOk_empty.
Defined.

(** ** Routes and mount points *)

Lemma handleTokenExchange_request P r1 r2 env origin w :
  body r1 = body r2 ->
  header_referral_code r1 = header_referral_code r2 ->
  handleTokenExchange P r1 env origin w = handleTokenExchange P r2 env origin w.
Proof.
  intros Hb Hr. unfold handleTokenExchange, exchanged, enrich, referralCodeOf.
  now rewrite Hb, Hr.
Qed.

Lemma strip_api path :
  Js.isPrefix "/" path = true ->
  stripRoutePrefix ("/api" ++ path) = path
  /\ stripRoutePrefix ("/api-staging" ++ path) = path.
Proof.
  destruct path as [|c path]; [discriminate|]. cbn [Js.isPrefix].
  intros Hc. apply andb_true_iff in Hc as [Hc _].
  apply Ascii.eqb_eq in Hc. subst c. split; reflexivity.
Qed.

Lemma isPrefix_app p q : forall s,
  Js.isPrefix (p ++ q) s = true -> Js.isPrefix p s = true.
Proof.
  induction p as [|a p IH]; intros s; [reflexivity|].
  change (String a p ++ q) with (String a (p ++ q)).
  destruct s as [|b s]; cbn [Js.isPrefix]; [discriminate|].
  intros H. apply andb_true_iff in H as [Hab H]. rewrite Hab. now apply IH.
Qed.

Lemma strip_other path :
  Js.isPrefix "/api" path = false -> stripRoutePrefix path = path.
Proof.
  intros Hp. unfold stripRoutePrefix, Js.startsWith. rewrite Hp.
  destruct (Js.isPrefix "/api-staging" path) eqn:H; [|reflexivity].
  apply (isPrefix_app "/api" "-staging") in H. congruence.
Qed.

(** X18.  The worker answers alike under its two mount points and without one:
    for a path that starts with a slash and is not itself under [/api], the
    requests for [/api] + path, [/api-staging] + path and path get the same
    response and leave the same state. *)
Theorem mount_point_independent P request env w path :
  Js.isPrefix "/" path = true ->
  Js.isPrefix "/api" path = false ->
  worker_fetch P (withPath request ("/api" ++ path)) env w
    = worker_fetch P (withPath request path) env w
  /\ worker_fetch P (withPath request ("/api-staging" ++ path)) env w
     = worker_fetch P (withPath request path) env w.
Proof.
  intros Hslash Hapi.
  destruct (strip_api path Hslash) as [H1 H2].
  pose proof (strip_other path Hapi) as H3.
  unfold worker_fetch, withPath. cbn [method url_pathname header_origin].
  rewrite H1, H2, H3.
  split;
    (destruct (String.eqb (method request) "OPTIONS"); [reflexivity|];
     destruct (String.eqb path "/health"); [reflexivity|];
     destruct (String.eqb path "/oauth/token" && String.eqb (method request) "POST");
     [apply handleTokenExchange_request; reflexivity|reflexivity]).
Qed.

Lemma mount_point_independent_witness :
  let P := samplePlatform (sampleExchange "https://app.example.com/callback" "google") 200 in
  worker_fetch P (withPath sampleRequest ("/api" ++ "/oauth/token")) sampleEnv freshWorld
    = worker_fetch P (withPath sampleRequest "/oauth/token") sampleEnv freshWorld
  /\ worker_fetch P (withPath sampleRequest ("/api-staging" ++ "/oauth/token"))
       sampleEnv freshWorld
     = worker_fetch P (withPath sampleRequest "/oauth/token") sampleEnv freshWorld.
Proof.
  cbv zeta.
  apply (mount_point_independent
           (samplePlatform (sampleExchange "https://app.example.com/callback" "google") 200)
           sampleRequest sampleEnv freshWorld "/oauth/token"); reflexivity.
Defined.

(** X19.  Only a POST to [/oauth/token] can reach a provider or the backend, or
    write to the console: every other request leaves both untouched. *)
Theorem only_token_route_calls_out P request env w :
  method request = "OPTIONS"
  \/ stripRoutePrefix (url_pathname request) <> "/oauth/token"
  \/ method request <> "POST" ->
  extends w (snd (worker_fetch P request env w)) [] [].
Proof.
  intros Hroute. unfold worker_fetch.
  destruct (String.eqb_spec (method request) "OPTIONS") as [Hopt|Hopt].
  - rewrite returned_snd. unfold handleCors. rewrite bind_eq. unfold ret. cbn [snd].
    destruct (Js.truthy (header_origin request));
      [apply withCache_extends|apply extends_refl].
  - destruct (String.eqb _ "/health");
      [rewrite returned_snd; apply jsonResponse_extends|].
    destruct (String.eqb_spec (stripRoutePrefix (url_pathname request)) "/oauth/token")
      as [Hp|Hp]; cbn [andb]; [|rewrite returned_snd; apply jsonResponse_extends].
    destruct (String.eqb_spec (method request) "POST") as [Hm|Hm];
      [|rewrite returned_snd; apply jsonResponse_extends].
    destruct Hroute as [H|[H|H]]; contradiction.
Qed.

Lemma only_token_route_calls_out_witness :
  let P := samplePlatform (sampleExchange "https://app.example.com/callback" "google") 200 in
  let request := withPath {| method := "GET"; url_pathname := EmptyString;
                             header_origin := Some "https://app.example.com";
                             header_referral_code := None; body := "exchange" |}
                   "/api/oauth/token" in
  extends freshWorld (snd (worker_fetch P request sampleEnv freshWorld)) [] [].
Proof.
  cbv zeta.
  apply (only_token_route_calls_out
           (samplePlatform (sampleExchange "https://app.example.com/callback" "google") 200)
           (withPath {| method := "GET"; url_pathname := EmptyString;
                        header_origin := Some "https://app.example.com";
                        header_referral_code := None; body := "exchange" |}
              "/api/oauth/token")
           sampleEnv freshWorld).
  right. right. discriminate.
Defined.

(** X20.  A request that is not a preflight, not for [/health] and not a POST to
    [/oauth/token] is answered 404 [{error: "Not found"}], without an
    outbound call. *)
Theorem other_routes_not_found P request env w :
  method request <> "OPTIONS" ->
  stripRoutePrefix (url_pathname request) <> "/health" ->
  ~ (stripRoutePrefix (url_pathname request) = "/oauth/token" /\ method request = "POST") ->
  answers (fst (worker_fetch P request env w)) 404 (DError "Not found")
  /\ extends w (snd (worker_fetch P request env w)) [] [].
Proof.
  intros Hopt Hhealth Htoken. unfold worker_fetch.
  destruct (String.eqb_spec (method request) "OPTIONS") as [E|_]; [contradiction|].
  destruct (String.eqb_spec (stripRoutePrefix (url_pathname request)) "/health")
    as [E|_]; [contradiction|].
  destruct (String.eqb_spec (stripRoutePrefix (url_pathname request)) "/oauth/token")
    as [E1|_]; cbn [andb];
    [destruct (String.eqb_spec (method request) "POST") as [E2|_]; [tauto|]|];
    rewrite returned_fst, returned_snd;
    (split; [apply answers_jsonResponse|apply jsonResponse_extends]).
Qed.

Lemma other_routes_not_found_witness :
  let P := samplePlatform (sampleExchange "https://app.example.com/callback" "google") 200 in
  let request := withPath {| method := "GET"; url_pathname := EmptyString;
                             header_origin := None; header_referral_code := None;
                             body := EmptyString |} "/api/oauth/token" in
  answers (fst (worker_fetch P request sampleEnv freshWorld)) 404 (DError "Not found")
  /\ extends freshWorld (snd (worker_fetch P request sampleEnv freshWorld)) [] [].
Proof.
  cbv zeta.
  apply (other_routes_not_found
           (samplePlatform (sampleExchange "https://app.example.com/callback" "google") 200)
           (withPath {| method := "GET"; url_pathname := EmptyString;
                        header_origin := None; header_referral_code := None;
                        body := EmptyString |} "/api/oauth/token")
           sampleEnv freshWorld).
  - discriminate.
  - vm_compute. discriminate.
  - intros [_ H]. discriminate H.
Defined.

(** ** The cache only grows, and only by keys of the allowlist *)

Lemma grows_refl keys (c : Cache) : grows keys c c.
Proof. split; [trivial|]. intros key H. now left. Qed.

Lemma grows_trans keys (c1 c2 c3 : Cache) :
  grows keys c1 c2 -> grows keys c2 c3 -> grows keys c1 c3.
Proof.
  intros [K1 N1] [K2 N2]. split.
  - intros key regex H. apply K2, K1, H.
  - intros key H. destruct (N2 key H) as [H2|H2]; [apply N1, H2|now right].
Qed.

Lemma matchesPattern_grows keys uri pattern (c : Cache) :
  In pattern keys -> grows keys c (snd (matchesPattern uri pattern c)).
Proof.
  intros Hin. split; [intros key regex; apply matchesPattern_keeps|].
  intros key. destruct (c !! pattern) as [regex|] eqn:Hget.
  - rewrite (matchesPattern_hit _ _ _ _ Hget). cbn [snd]. now left.
  - rewrite (matchesPattern_miss _ _ _ Hget). cbn [snd].
    rewrite lookup_insert. case_decide as Hk; [subst key; now right|now left].
Qed.

Lemma firstMatch_grows keys test patterns :
  (forall pattern (c : Cache), In pattern patterns -> grows keys c (snd (test pattern c))) ->
  forall c : Cache, grows keys c (snd (firstMatch test patterns c)).
Proof.
  induction patterns as [|pattern rest IH]; intros Htest c; [apply grows_refl|].
  cbn [firstMatch]. pose proof (Htest pattern c (or_introl eq_refl)) as Hstep.
  destruct (test pattern c) as [ok c']. cbn [snd] in Hstep.
  destruct ok; [exact Hstep|].
  apply (grows_trans _ _ c'); [exact Hstep|].
  apply IH. intros p c0 Hp. apply Htest. now right.
Qed.

Lemma allowlistKeys_entry URL allowedUris pattern :
  In pattern (allowlist allowedUris) -> In pattern (allowlistKeys URL allowedUris).
Proof.
  intros Hin. unfold allowlistKeys. apply in_flat_map.
  exists pattern. split; [exact Hin|now left].
Qed.

Lemma allowlistKeys_origin URL allowedUris pattern patternOrigin :
  In pattern (allowlist allowedUris) ->
  extractOrigin URL pattern = Some patternOrigin ->
  In patternOrigin (allowlistKeys URL allowedUris).
Proof.
  intros Hin E. unfold allowlistKeys. apply in_flat_map.
  exists pattern. split; [exact Hin|]. rewrite E. right. now left.
Qed.

Lemma validateRedirectUri_grows URL redirectUri allowedUris (c : Cache) :
  grows (allowlistKeys URL allowedUris) c
    (snd (validateRedirectUri redirectUri allowedUris c)).
Proof.
  unfold validateRedirectUri.
  destruct (Js.isEmpty redirectUri); [apply grows_refl|].
  apply firstMatch_grows. intros pattern c' Hin.
  apply matchesPattern_grows. now apply allowlistKeys_entry.
Qed.

Lemma isAllowedOrigin_grows URL origin allowedUris (c : Cache) :
  grows (allowlistKeys URL allowedUris) c
    (snd (isAllowedOrigin URL origin allowedUris c)).
Proof.
  unfold isAllowedOrigin.
  destruct (Js.isEmpty origin); [apply grows_refl|].
  apply firstMatch_grows. intros pattern c' Hin.
  destruct (extractOrigin URL pattern) as [o|] eqn:E; cbn [Js.truthy];
    [|apply grows_refl].
  destruct (negb (Js.isEmpty o)); [|apply grows_refl].
  apply matchesPattern_grows. cbn [default].
  eapply allowlistKeys_origin; eassumption.
Qed.

Lemma growing_ret keys {A} (a : A) : growing keys (ret a).
Proof. intros w. apply grows_refl. Qed.

Lemma growing_bind keys {A B} (m : St A) (k : A -> St B) :
  growing keys m -> (forall a, growing keys (k a)) -> growing keys (bind m k).
Proof.
  intros Hm Hk w. rewrite bind_eq.
  eapply grows_trans; [apply Hm|apply Hk].
Qed.

Lemma growing_withCache keys {A} (f : Cache -> A * Cache) :
  (forall c : Cache, grows keys c (snd (f c))) -> growing keys (withCache f).
Proof.
  intros Hf w. unfold withCache. specialize (Hf (regexCache w)).
  destruct (f (regexCache w)). exact Hf.
Qed.

Lemma growing_console_error keys line : growing keys (console_error line).
Proof. intros w. apply grows_refl. Qed.

Lemma growing_fetch keys P call : growing keys (fetch P call).
Proof. intros w. apply grows_refl. Qed.

Lemma growing_jsonResponse P data st origin allowedUris :
  growing (allowlistKeys (URL P) allowedUris) (jsonResponse P data st origin allowedUris).
Proof.
  unfold jsonResponse. apply growing_bind; [|intros; apply growing_ret].
  unfold originAllowed.
  destruct (Js.truthy origin && negb (Js.isEmpty allowedUris)); [|apply growing_ret].
  apply growing_withCache. intros c. apply isAllowedOrigin_grows.
Qed.

Lemma growing_logged_error P line message st origin allowedUris :
  growing (allowlistKeys (URL P) allowedUris)
    (bind (console_error line)
       (fun _ => errorResponse P message st origin allowedUris)).
Proof.
  apply growing_bind; [apply growing_console_error|].
  intros _. apply growing_jsonResponse.
Qed.

Lemma growing_exchangeCode keys P req env config :
  growing keys (exchangeCode P req env config).
Proof.
  unfold exchangeCode.
  destruct (negb (Js.truthy (envGet env (clientIdKey config)))); [apply growing_ret|].
  destruct (negb (Js.truthy (envGet env (clientSecretKey config)))); [apply growing_ret|].
  apply growing_bind; [apply growing_fetch|]. intros [response|err];
    [|apply growing_ret].
  destruct (negb (resp_ok response)); [apply growing_ret|].
  destruct (JSON_parse_token P (resp_text response)) as [t|]; [|apply growing_ret].
  destruct (negb (Js.truthy (access_token t))); [apply growing_ret|].
  destruct (negb (Js.truthy (id_token t))); apply growing_ret.
Qed.

Lemma growing_fetchUserInfo keys P idToken env referralCode :
  growing keys (fetchUserInfo P idToken env referralCode).
Proof.
  unfold fetchUserInfo. apply growing_bind; [apply growing_fetch|].
  intros [response|err]; [|apply growing_ret].
  destruct (negb (resp_ok response)); [apply growing_ret|].
  destruct (JSON_parse P (resp_text response)); apply growing_ret.
Qed.

Lemma growing_returned keys {A} (m : St A) : growing keys m -> growing keys (returned m).
Proof. intros Hm. apply growing_bind; [exact Hm|]. intros a. apply growing_ret. Qed.

Lemma growing_exchanged P request env origin exchange :
  growing (allowlistKeys (URL P) (ALLOWED_REDIRECT_URIS env)) exchange ->
  growing (allowlistKeys (URL P) (ALLOWED_REDIRECT_URIS env))
    (exchanged P request env origin exchange).
Proof.
  intros Hexchange.
  unfold exchanged. apply growing_bind; [exact Hexchange|].
  intros [tokenResp|err]; [|apply growing_logged_error].
  unfold enrich.
  destruct (negb (Js.truthy (id_token tokenResp))); [apply growing_logged_error|].
  apply growing_bind; [apply growing_fetchUserInfo|].
  intros [userInfo|err]; [apply growing_jsonResponse|apply growing_logged_error].
Qed.

Lemma growing_handleTokenExchange P request env origin :
  growing (allowlistKeys (URL P) (ALLOWED_REDIRECT_URIS env))
    (handleTokenExchange P request env origin).
Proof.
  unfold handleTokenExchange.
  destruct (body_json P (body request)) as [[|req]|];
    [apply growing_ret| |apply growing_returned, growing_jsonResponse].
  apply growing_returned.
  destruct (negb (Js.truthy (code req))); [apply growing_jsonResponse|].
  destruct (negb (Js.truthy (redirect_uri req))); [apply growing_jsonResponse|].
  destruct (negb (isTruthy (provider_json req))); [apply growing_jsonResponse|].
  apply growing_bind.
  - apply growing_withCache. intros c. apply validateRedirectUri_grows.
  - intros valid. destruct (negb valid); [apply growing_logged_error|].
    destruct (toLowerCaseOf (provider_json req)) as [provider|err];
      [|apply growing_exchanged, growing_ret].
    destruct (String.eqb _ "google");
      [apply growing_exchanged, growing_exchangeCode|].
    destruct (String.eqb _ "outlook" || String.eqb _ "microsoft");
      [apply growing_exchanged, growing_exchangeCode|apply growing_jsonResponse].
Qed.

Lemma cache_grows P request env w :
  grows (allowlistKeys (URL P) (ALLOWED_REDIRECT_URIS env))
    (regexCache w) (regexCache (snd (worker_fetch P request env w))).
Proof.
  revert w. change (growing (allowlistKeys (URL P) (ALLOWED_REDIRECT_URIS env))
                      (worker_fetch P request env)).
  unfold worker_fetch.
  destruct (String.eqb (method request) "OPTIONS").
  - apply growing_returned.
    unfold handleCors. apply growing_bind; [|intros; apply growing_ret].
    destruct (Js.truthy (header_origin request)); [|apply growing_ret].
    apply growing_withCache. intros c. apply isAllowedOrigin_grows.
  - destruct (String.eqb _ "/health"); [apply growing_returned, growing_jsonResponse|].
    destruct (String.eqb _ "/oauth/token" && String.eqb (method request) "POST");
      [apply growing_handleTokenExchange
      |apply growing_returned, growing_jsonResponse].
Qed.

(** X21.  Serving a request keeps every entry of the regex cache and adds only
    entries keyed by an allowlist entry or by the origin one reduces to: no
    redirect URI, origin or other text of a request becomes a key. *)
Theorem cache_keyed_by_allowlist P request env w :
  (forall key regex,
     regexCache w !! key = Some regex ->
     regexCache (snd (worker_fetch P request env w)) !! key = Some regex)
  /\ (forall key,
        is_Some (regexCache (snd (worker_fetch P request env w)) !! key) ->
        is_Some (regexCache w !! key)
        \/ In key (allowlist (ALLOWED_REDIRECT_URIS env))
        \/ exists pattern,
             In pattern (allowlist (ALLOWED_REDIRECT_URIS env))
             /\ extractOrigin (URL P) pattern = Some key).
Proof.
  destruct (cache_grows P request env w) as [Hkeep Hnew]. split; [exact Hkeep|].
  intros key Hkey. destruct (Hnew key Hkey) as [H|H]; [now left|right].
  unfold allowlistKeys in H. apply in_flat_map in H as (pattern & Hin & [<-|H]);
    [now left|right].
  exists pattern. split; [exact Hin|].
  destruct (extractOrigin (URL P) pattern) as [o|]; [|destruct H].
  destruct H as [<-|[]]. reflexivity.
Qed.

(** X22.  Serving a request keeps the invariant of the cache: every cached regex
    is the one compiled from its key, so that a hit answers as a fresh
    compilation would. *)
Theorem cache_invariant_kept P request env w :
  cacheOk (regexCache w) ->
  cacheOk (regexCache (snd (worker_fetch P request env w))).
Proof. apply worker_fetch_preserves. Qed.

Lemma cache_invariant_kept_witness :
  cacheOk (regexCache
             (snd (worker_fetch
                     (samplePlatform
                        (sampleExchange "https://app.example.com/callback" "google") 200)
                     sampleRequest sampleEnv freshWorld))).
Proof.
  apply (cache_invariant_kept
           (samplePlatform (sampleExchange "https://app.example.com/callback" "google") 200)
           sampleRequest sampleEnv freshWorld).
  apply cacheOk_empty.
Defined.

Lemma size_list_to_set_le (keys : list string) :
  size (list_to_set keys : gset string) <= length keys.
Proof.
  induction keys as [|k keys IH]; [rewrite list_to_set_nil, size_empty; cbn; lia|].
  rewrite list_to_set_cons, size_union_alt, size_singleton. cbn [length].
  assert (H : size ((list_to_set keys : gset string) ∖ {[k]})
              <= size (list_to_set keys : gset string))
    by (apply subseteq_size; intros x [Hx _]%elem_of_difference; exact Hx).
  lia.
Qed.

Lemma allowlistKeys_length URL allowedUris :
  length (allowlistKeys URL allowedUris) <= 2 * length (allowlist allowedUris).
Proof.
  unfold allowlistKeys. induction (allowlist allowedUris) as [|p l IH]; [cbn; lia|].
  cbn [flat_map]. rewrite length_app. cbn [length].
  destruct (extractOrigin URL p); cbn [length]; lia.
Qed.

Lemma serve_keys P env requests : forall w,
  (forall key, is_Some (regexCache w !! key) ->
               In key (allowlistKeys (URL P) (ALLOWED_REDIRECT_URIS env))) ->
  forall key, is_Some (regexCache (serve P env requests w) !! key) ->
              In key (allowlistKeys (URL P) (ALLOWED_REDIRECT_URIS env)).
Proof.
  induction requests as [|request rest IH]; intros w Hw; [exact Hw|].
  cbn [serve]. apply IH. intros key Hkey.
  destruct (cache_grows P request env w) as [_ Hnew].
  destruct (Hnew key Hkey) as [H|H]; [now apply Hw|exact H].
Qed.

(** X23.  The cache stays bounded by the size of the configuration: an isolate
    that starts with an empty cache holds, after any number of requests
    served one after the other, at most two entries per entry of the
    allowlist, the entry and the origin it reduces to. *)
Theorem cache_size_bounded P env requests w :
  regexCache w = ∅ ->
  size (regexCache (serve P env requests w))
  <= 2 * length (allowlist (ALLOWED_REDIRECT_URIS env)).
Proof.
  intros Hempty.
  set (keys := allowlistKeys (URL P) (ALLOWED_REDIRECT_URIS env)).
  assert (Hdom : dom (regexCache (serve P env requests w))
                 ⊆ (list_to_set keys : gset string)).
  { intros key Hkey. apply elem_of_dom in Hkey.
    apply elem_of_list_to_set, list_elem_of_In.
    apply (serve_keys P env requests w); [|exact Hkey].
    intros k Hk. rewrite Hempty, lookup_empty in Hk. destruct Hk as [x Hx].
    discriminate Hx. }
  apply subseteq_size in Hdom. rewrite size_dom in Hdom.
  pose proof (size_list_to_set_le keys) as H2.
  pose proof (allowlistKeys_length (URL P) (ALLOWED_REDIRECT_URIS env)) as H3.
  fold keys in H3. lia.
Qed.

(** Three requests in a row, a preflight among them, against an allowlist of
    one entry. *)
Lemma cache_size_bounded_witness :
  let P := samplePlatform (sampleExchange "https://app.example.com/callback" "google") 200 in
  let preflight := {| method := "OPTIONS"; url_pathname := "/api/oauth/token";
                      header_origin := Some "https://app.example.com";
                      header_referral_code := None; body := EmptyString |} in
  size (regexCache (serve P sampleEnv [preflight; sampleRequest; sampleRequest] freshWorld))
  <= 2 * length (allowlist (ALLOWED_REDIRECT_URIS sampleEnv)).
Proof.
  cbv zeta.
  apply (cache_size_bounded
           (samplePlatform (sampleExchange "https://app.example.com/callback" "google") 200)
           sampleEnv
           [{| method := "OPTIONS"; url_pathname := "/api/oauth/token";
               header_origin := Some "https://app.example.com";
               header_referral_code := None; body := EmptyString |};
            sampleRequest; sampleRequest]
           freshWorld).
  reflexivity.
Defined.

(** ** The two outbound calls *)

(** X24.  [fetchUserInfo] makes one GET to the profile endpoint and throws
    exactly when the call is rejected, [fetch] or the reading of the body,
    whose error it lets through, or the backend answers outside 2xx or with
    a body that does not parse; otherwise it returns the parsed body,
    untouched. *)
Theorem fetchUserInfo_fails_iff P idToken env referralCode w :
  ((exists message, fst (fetchUserInfo P idToken env referralCode w) = Throw message)
   <-> enrichmentFailed P idToken env referralCode)
  /\ (forall err,
        backendResponse P idToken env referralCode = Throw err ->
        fst (fetchUserInfo P idToken env referralCode w) = Throw err)
  /\ (forall userInfo,
        fst (fetchUserInfo P idToken env referralCode w) = Ok userInfo
        <-> enriched P idToken env referralCode userInfo)
  /\ extends w (snd (fetchUserInfo P idToken env referralCode w))
       [userInfoRequest idToken env referralCode] [].
Proof.
  split; [apply fetchUserInfo_Throw|].
  split; [|split; [intros userInfo; apply fetchUserInfo_Ok|apply fetchUserInfo_extends]].
  intros err Herr. now rewrite fetchUserInfo_fst, Herr.
Qed.

(** X25.  The referral code of a request reaches the backend only when the header
    is present and not empty, and then unchanged. *)
Theorem referral_code_forwarded idToken env request value :
  In ("x-referral-code", value)
    (fetch_headers (userInfoRequest idToken env (referralCodeOf request)))
  <-> header_referral_code request = Some value /\ value <> EmptyString.
Proof.
  unfold userInfoRequest, referralCodeOf. cbn [fetch_headers].
  destruct (header_referral_code request) as [[|c r]|]; cbn; split;
    try (intros [H|[]]; discriminate H);
    try (intros [H _]; discriminate H);
    try (intros [H1 H2]; congruence).
  - intros [H|[H|[]]]; [discriminate|]. injection H as <-. split; [reflexivity|discriminate].
  - intros [[= <-] _]. right. now left.
Qed.

(** X26.  With a credential missing or empty [exchangeCode] throws a message that
    names the missing binding, the client id first, and makes no call. *)
Theorem unconfigured_provider_not_called P req env config w :
  Js.truthy (envGet env (clientIdKey config)) = false
  \/ Js.truthy (envGet env (clientSecretKey config)) = false ->
  fst (exchangeCode P req env config w)
  = Throw ((if Js.truthy (envGet env (clientIdKey config))
            then clientSecretKey config else clientIdKey config)
             ++ " is not configured")
  /\ snd (exchangeCode P req env config w) = w.
Proof.
  intros H. unfold exchangeCode.
  destruct (Js.truthy (envGet env (clientIdKey config))); cbn [negb];
    [|split; reflexivity].
  destruct H as [H|H]; [discriminate|]. rewrite H. split; reflexivity.
Qed.

Lemma unconfigured_provider_not_called_witness :
  let env := {| ENVIRONMENT := "staging";
                USER_INFO_SERVICE_URL := "https://backend.example.com/api";
                ALLOWED_REDIRECT_URIS := "https://app.example.com/*";
                GOOGLE_OAUTH_CLIENT_ID := Some "google-client";
                GOOGLE_OAUTH_CLIENT_SECRET := None;
                MICROSOFT_OAUTH_CLIENT_ID := None;
                MICROSOFT_OAUTH_CLIENT_SECRET := None |} in
  let req := sampleExchange "https://app.example.com/callback" "google" in
  fst (exchangeCode (samplePlatform req 200) req env googleConfig freshWorld)
  = Throw ((if Js.truthy (envGet env (clientIdKey googleConfig))
            then clientSecretKey googleConfig else clientIdKey googleConfig)
             ++ " is not configured")
  /\ snd (exchangeCode (samplePlatform req 200) req env googleConfig freshWorld) = freshWorld.
Proof.
  cbv zeta.
  apply (unconfigured_provider_not_called
           (samplePlatform (sampleExchange "https://app.example.com/callback" "google") 200)
           (sampleExchange "https://app.example.com/callback" "google")
           {| ENVIRONMENT := "staging";
              USER_INFO_SERVICE_URL := "https://backend.example.com/api";
              ALLOWED_REDIRECT_URIS := "https://app.example.com/*";
              GOOGLE_OAUTH_CLIENT_ID := Some "google-client";
              GOOGLE_OAUTH_CLIENT_SECRET := None;
              MICROSOFT_OAUTH_CLIENT_ID := None;
              MICROSOFT_OAUTH_CLIENT_SECRET := None |}
           googleConfig freshWorld).
  right. reflexivity.
Defined.



(** The two calls of a successful sample run. *)
Lemma secret_goes_to_its_provider_witness :
  let req := sampleExchange "https://app.example.com/callback" "google" in
  let P := samplePlatform req 200 in
  let call := profileGet sampleEnv sampleRequest "eyJhbGciOi.eyJlbWFpbCI6.c2ln" in
  (exists req' config clientId clientSecret,
     accepted P sampleRequest sampleEnv freshWorld req'
     /\ dispatched req' config
     /\ ((config = googleConfig
          /\ GOOGLE_OAUTH_CLIENT_ID sampleEnv = Some clientId
          /\ GOOGLE_OAUTH_CLIENT_SECRET sampleEnv = Some clientSecret)
         \/ (config = microsoftConfig
             /\ MICROSOFT_OAUTH_CLIENT_ID sampleEnv = Some clientId
             /\ MICROSOFT_OAUTH_CLIENT_SECRET sampleEnv = Some clientSecret))
     /\ call = exchangePost (tokenEndpoint config) req' clientId clientSecret)
  \/ (exists req' config tokens,
        accepted P sampleRequest sampleEnv freshWorld req'
        /\ dispatched req' config
        /\ fst (exchangeCode P req' sampleEnv config freshWorld) = Ok tokens
        /\ call = profileGet sampleEnv sampleRequest (default EmptyString (id_token tokens))).
Proof.
  cbv zeta.
  apply (secret_goes_to_its_provider
           (samplePlatform (sampleExchange "https://app.example.com/callback" "google") 200)
           sampleRequest sampleEnv None freshWorld
           (profileGet sampleEnv sampleRequest "eyJhbGciOi.eyJlbWFpbCI6.c2ln")).
  vm_compute. right. left. reflexivity.
Defined.

(** ** The email claim of an ID token *)

Lemma split_length sep s : length (Js.split sep s) = S (countChar sep s).
Proof.
  induction s as [|c s IH]; [reflexivity|]. cbn [Js.split countChar].
  destruct (Ascii.eqb c sep); cbn [length]; [now rewrite IH|].
  destruct (Js.split sep s) as [|x xs]; cbn [length] in *; lia.
Qed.












(** X29.  A token is refused as [Invalid JWT format] exactly when it does not
    have three dot-separated segments, before anything is decoded. *)
Theorem jwt_needs_three_segments atob parse idToken :
  extractEmailFromIdToken atob parse idToken = Throw "Invalid JWT format"
  <-> countChar "." idToken <> 2.
Proof.
  unfold extractEmailFromIdToken. cbv zeta. rewrite split_length.
  destruct (Nat.eqb_spec (S (countChar "." idToken)) 3) as [E|E]; cbn [negb].
  - split; [|lia]. intros H. exfalso.
    destruct (atob _); [|discriminate].
    destruct (parse _) as [claims|]; [|discriminate].
    destruct (stringClaim (email claims)); [discriminate|].
    destruct (stringClaim (preferred_username claims)) as [name|];
      [destruct (includes name "@"); [discriminate|]|];
      (destruct (stringClaim (upn claims)) as [principal|];
       [destruct (includes principal "@")|]; discriminate).
  - split; [lia|reflexivity].
Qed.

Lemma stringClaim_nonempty x s : stringClaim x = Some s -> s <> EmptyString.
Proof.
  destruct x as [[]|]; try discriminate. cbn.
  destruct s0; cbn; [discriminate|]. intros [= <-]. discriminate.
Qed.

(** X30.  Once the payload is decoded, a non-empty string [email] claim is
    returned whatever the other claims; failing that, [preferred_username]
    and then [upn] are returned only when they hold an [@]; what is returned
    is never empty. *)
Theorem email_claim_precedence atob parse idToken payload claims :
  countChar "." idToken = 2 ->
  atob (base64Padded (nth 1 (Js.split "." idToken) EmptyString)) = Some payload ->
  parse payload = Some claims ->
  (forall address,
     stringClaim (email claims) = Some address ->
     extractEmailFromIdToken atob parse idToken = Ok address)
  /\ (forall result,
        extractEmailFromIdToken atob parse idToken = Ok result ->
        result <> EmptyString
        /\ (stringClaim (email claims) = Some result
            \/ (stringClaim (email claims) = None
                /\ includes result "@" = true
                /\ (stringClaim (preferred_username claims) = Some result
                    \/ stringClaim (upn claims) = Some result)))).
Proof.
  intros Hdots Hatob Hparse.
  unfold extractEmailFromIdToken. cbv zeta.
  rewrite split_length, Hdots. cbn [Nat.eqb negb]. rewrite Hatob, Hparse.
  split.
  - intros address ->. reflexivity.
  - intros result.
    destruct (stringClaim (email claims)) as [address|] eqn:He.
    { intros [= <-]. split; [eapply stringClaim_nonempty; eassumption|now left]. }
    destruct (stringClaim (preferred_username claims)) as [name|] eqn:Hn.
    + destruct (includes name "@") eqn:Hat.
      { intros [= <-]. split; [eapply stringClaim_nonempty; eassumption|].
        right. repeat split; [exact Hat|now left]. }
      destruct (stringClaim (upn claims)) as [principal|] eqn:Hu; [|discriminate].
      destruct (includes principal "@") eqn:Hat'; [|discriminate].
      intros [= <-]. split; [eapply stringClaim_nonempty; eassumption|].
      right. repeat split; [exact Hat'|now right].
    + destruct (stringClaim (upn claims)) as [principal|] eqn:Hu; [|discriminate].
      destruct (includes principal "@") eqn:Hat'; [|discriminate].
      intros [= <-]. split; [eapply stringClaim_nonempty; eassumption|].
      right. repeat split; [exact Hat'|now right].
Qed.

Lemma email_claim_precedence_witness :
  let atob := fun _ : string => Some "payload" in
  let parse := fun _ : string => Some sampleClaims in
  (forall address,
     stringClaim (email sampleClaims) = Some address ->
     extractEmailFromIdToken atob parse "eyJhbGci.eyJlbWFpbCI6.c2ln" = Ok address)
  /\ (forall result,
        extractEmailFromIdToken atob parse "eyJhbGci.eyJlbWFpbCI6.c2ln" = Ok result ->
        result <> EmptyString
        /\ (stringClaim (email sampleClaims) = Some result
            \/ (stringClaim (email sampleClaims) = None
                /\ includes result "@" = true
                /\ (stringClaim (preferred_username sampleClaims) = Some result
                    \/ stringClaim (upn sampleClaims) = Some result)))).
Proof.
  cbv zeta.
  apply (email_claim_precedence (fun _ => Some "payload") (fun _ => Some sampleClaims)
           "eyJhbGci.eyJlbWFpbCI6.c2ln" "payload" sampleClaims); reflexivity.
Defined.

(** ** Concrete runs of the matcher properties *)

Lemma matchesPattern_literal_witness :
  fst (matchesPattern "https://appXexample.com/" "https://app.example.com/" ∅)
  = String.eqb "https://appXexample.com/" "https://app.example.com/".
Proof.
  apply (matchesPattern_literal "https://appXexample.com/" "https://app.example.com/" ∅).
  - apply cacheOk_empty.
  - reflexivity.
Defined.

Lemma matchesPattern_spec_witness :
  fst (matchesPattern "https://app.example.com/cb?x=1" "https://*.example.com/*" ∅)
  = wildcardSpec "https://*.example.com/*" "https://app.example.com/cb?x=1".
Proof.
  apply (matchesPattern_spec "https://app.example.com/cb?x=1" "https://*.example.com/*" ∅).
  - apply cacheOk_empty.
  - reflexivity.
Defined.

Lemma matchesPattern_cache_independent_witness :
  fst (matchesPattern "https://app.example.com/" "https://app.example.com/*" ∅)
  = fst (matchesPattern "https://app.example.com/" "https://app.example.com/*"
           (snd (matchesPattern "https://other.example.org/" "https://app.example.com/*" ∅))).
Proof.
  apply (matchesPattern_cache_independent
           "https://app.example.com/" "https://app.example.com/*" ∅
           (snd (matchesPattern "https://other.example.org/" "https://app.example.com/*" ∅))).
  - apply cacheOk_empty.
  - apply matchesPattern_cacheOk, cacheOk_empty.
Defined.
